(** * VisualTusimple: drawing TuSimple lane annotations on an image

    A shallow embedding of [tusimple/visual_tusimple.py].  The class
    [VisualTusimple] loads one JSON record, loads the image the record
    names, draws a filled circle at every annotated lane point and writes
    the picture back to disk.

    The Python program works on mutable objects (the instance, the palette
    list, the numpy buffer) and on the file system, and every step may
    raise.  The embedding is a state-and-exception monad over an explicit
    store; the library calls ([json.load], [os.path.exists], [os.makedirs],
    [cv2.imread], [cv2.circle], [cv2.imwrite]) are modelled in modules named
    after the libraries, the methods of the class keep their Python names. *)

From Stdlib Require Import Ascii String.
From stdpp Require Import gmap strings list fin_maps.

Set Warnings "-register-all".
Local Open Scope Z_scope.

(** ** Python exceptions *)

(** The built-in exceptions the program can meet, [cv2.error], and
    [Custom] for an exception class a program would define itself (the
    source defines none). *)
Inductive exn :=
  | TypeError
  | KeyError (key : string)
  | IndexError
  | AttributeError (attr : string)
  | ZeroDivisionError
  | FileNotFoundError
  | FileExistsError
  | NotADirectoryError
  | IsADirectoryError
  | ValueError
  | cv2_error
  | Custom (name : string).

Inductive outcome (A : Type) :=
  | Ok (a : A)
  | Raise (e : exn).
Arguments Ok {A} a.
Arguments Raise {A} e.

(** ** JSON values

    What [json.load] returns: [None], booleans, integers, strings, lists
    and dicts (in key order).  Python integers are unbounded, hence [Z].
    Numbers with a fraction (Python floats) are left out of the model. *)
Inductive json :=
  | JNull
  | JBool (b : bool)
  | JInt (z : Z)
  | JStr (s : string)
  | JList (l : list json)
  | JObj (kvs : list (string * json)).

(** ** Colours, drawing calls and image buffers *)

(** A colour is a tuple of three channel values, as in the default palette. *)
Definition color : Type := Z * Z * Z.

(** One call [cv2.circle(img, center, radius, color, thickness)]. *)
Record mark := Mark {
  center : Z * Z;
  radius : Z;
  mark_color : color;
  thickness : Z
}.

(** The numpy buffer returned by [cv2.imread]: the decoded picture, named
    by [picture], and the drawing calls applied to it since, oldest
    first.  The rasterisation itself belongs to OpenCV. *)
Record image := Image {
  picture : string;
  marks : list mark
}.

(** ** The file system *)

(** A path is the list of its components, outermost first. *)
Abbreviation path := (list string).

Inductive content :=
  | CJson (j : json)      (* text that parses as JSON *)
  | CImage (img : image)  (* an encoded raster image *)
  | COther.               (* anything else *)

Inductive node :=
  | Dir
  | File (c : content).

(** ** The store *)

Abbreviation loc := positive.

(** The attributes of a [VisualTusimple] instance; [None] is an attribute
    not yet assigned.  [line_colors] and [image] hold references to
    mutable objects; [image] may also hold Python's [None], which is what
    [cv2.imread] returns for a file it cannot read. *)
Record instance := Instance {
  json_path : option string;
  line_colors : option loc;
  data : option json;
  image_ref : option (option loc)
}.

Inductive event :=
  | EvOpen (p : string)      (* open(p, 'r') *)
  | EvImread (p : string)    (* cv2.imread(p) *)
  | EvImwrite (p : string).  (* cv2.imwrite(p, _) *)

Record state := State {
  instances : gmap loc instance;     (* VisualTusimple objects *)
  lists : gmap loc (list color);     (* palette list objects *)
  images : gmap loc image;           (* numpy buffers *)
  fs : gmap path node;               (* the file system *)
  log : list event                   (* file and image I/O, oldest first *)
}.

Definition set_instances (f : gmap loc instance -> gmap loc instance) (s : state) : state :=
  State (f (instances s)) (lists s) (images s) (fs s) (log s).
Definition set_lists (f : gmap loc (list color) -> gmap loc (list color)) (s : state) : state :=
  State (instances s) (f (lists s)) (images s) (fs s) (log s).
Definition set_images (f : gmap loc image -> gmap loc image) (s : state) : state :=
  State (instances s) (lists s) (f (images s)) (fs s) (log s).
Definition set_fs (f : gmap path node -> gmap path node) (s : state) : state :=
  State (instances s) (lists s) (images s) (f (fs s)) (log s).
Definition add_event (e : event) (s : state) : state :=
  State (instances s) (lists s) (images s) (fs s) (log s ++ [e]).

(** ** The monad of Python statements *)

Definition M (A : Type) : Type := state -> outcome A * state.

Definition ret {A} (a : A) : M A := fun s => (Ok a, s).
Definition raise {A} (e : exn) : M A := fun s => (Raise e, s).
Definition bind {A B} (m : M A) (k : A -> M B) : M B :=
  fun s => match m s with
           | (Ok a, s') => k a s'
           | (Raise e, s') => (Raise e, s')
           end.
Definition get : M state := fun s => (Ok s, s).
Definition modify (f : state -> state) : M unit := fun s => (Ok tt, f s).
Definition lift {A} (o : outcome A) : M A := fun s => (o, s).

Declare Scope py_scope.
Delimit Scope py_scope with py.
Notation "x <- m ;; k" := (bind m (fun x => k))
  (at level 100, m at next level, right associativity) : py_scope.
Notation "m ;;; k" := (bind m (fun _ => k))
  (at level 100, right associativity) : py_scope.
Local Open Scope py_scope.

(** [try: m except Exception as e: handler e]. *)
Definition try_except {A} (m : M A) (handler : exn -> M A) : M A :=
  fun s => match m s with
           | (Ok a, s') => (Ok a, s')
           | (Raise e, s') => handler e s'
           end.

(** [for x in xs: body]. *)
Fixpoint for_each {A} (xs : list A) (body : A -> M unit) : M unit :=
  match xs with
  | [] => ret tt
  | x :: rest => body x ;;; for_each rest body
  end.

(** A Python call checks the positional arguments against the
    signature before the body runs: [arity] is the number of parameters
    after [self], [args] what the call site passes. *)
Definition call {A V} (arity : nat) (args : list V) (body : M A) : M A :=
  if (length args =? arity)%nat then body else raise TypeError.

(** ** Python operations on JSON values *)

Fixpoint assoc (k : string) (kvs : list (string * json)) : option json :=
  match kvs with
  | [] => None
  | (k', v) :: rest => if String.eqb k k' then Some v else assoc k rest
  end.

(** [obj[key]] for a string key: only a dict can be subscripted by a
    string, and a missing key is a [KeyError]. *)
Definition subscript (obj : json) (key : string) : outcome json :=
  match obj with
  | JObj kvs =>
      match assoc key kvs with
      | Some v => Ok v
      | None => Raise (KeyError key)
      end
  | _ => Raise TypeError
  end.

(** [iter(v)], as [enumerate] and [zip] call it on their arguments: a
    list yields its items, a dict its keys, a string its characters;
    [None], booleans and integers are not iterable. *)
Definition iter (v : json) : outcome (list json) :=
  match v with
  | JList l => Ok l
  | JObj kvs => Ok (map (fun kv => JStr (fst kv)) kvs)
  | JStr s => Ok (map (fun c => JStr (String c EmptyString)) (String.list_ascii_of_string s))
  | _ => Raise TypeError
  end.

(** [x != n] for an integer literal [n].  Booleans compare as 0 and 1;
    values of any other type differ from every integer. *)
Definition ne_int (x : json) (n : Z) : bool :=
  match x with
  | JInt z => negb (z =? n)
  | JBool b => negb ((if b then 1 else 0) =? n)
  | _ => true
  end.

(** [enumerate(xs)]. *)
Definition enumerate {A} (xs : list A) : list (nat * A) :=
  zip (seq 0 (length xs)) xs.

(** ** Paths *)

(** The components of a path string, split at the slashes.  Absolute
    and relative paths are not told apart (the working directory is the
    root) and the components [.] and [..] are not interpreted. *)
Fixpoint components_from (cur : string) (s : string) : path :=
  match s with
  | EmptyString => if String.eqb cur "" then [] else [cur]
  | String c rest =>
      if Ascii.eqb c "/"%char
      then (if String.eqb cur "" then components_from "" rest
            else cur :: components_from "" rest)
      else components_from (cur +:+ String c EmptyString) rest
  end.

(** The empty string names no file; any other string names the node at
    its components, [[]] being the root directory. *)
Definition resolve (p : string) : option path :=
  if String.eqb p "" then None else Some (components_from "" p).

Definition parent (c : path) : path := removelast c.

(** The node at a component list; the root is a directory and is not
    stored in the map. *)
Definition node_at (files : gmap path node) (c : path) : option node :=
  match c with
  | [] => Some Dir
  | _ => files !! c
  end.

Definition is_dir (n : option node) : bool :=
  match n with
  | Some Dir => true
  | _ => false
  end.

Definition node_of (files : gmap path node) (p : string) : option node :=
  match resolve p with
  | Some c => node_at files c
  | None => None
  end.

(** ** The standard library: [open], [json], [os] *)

(** Does the name end in a slash, does it hold a NUL character. *)
Fixpoint ends_slash (p : string) : bool :=
  match p with
  | EmptyString => false
  | String c EmptyString => Ascii.eqb c "/"%char
  | String _ rest => ends_slash rest
  end.

Fixpoint has_nul (p : string) : bool :=
  match p with
  | EmptyString => false
  | String c rest => Ascii.eqb c "000"%char || has_nul rest
  end.

(** Walking down from the directory [cur] along the components
    [comps], as the operating system resolves a name: every step starts
    from an existing directory, [.] stays, [..] goes up (the root is
    its own parent), a name goes down. *)
Fixpoint walk (files : gmap path node) (cur : path) (comps : list string)
    : outcome path :=
  match comps with
  | [] => Ok cur
  | x :: rest =>
      match node_at files cur with
      | Some Dir =>
          walk files
            (if String.eqb x "." then cur
             else if String.eqb x ".." then parent cur
             else cur ++ [x])
            rest
      | Some (File _) => Raise NotADirectoryError
      | None => Raise FileNotFoundError
      end
  end.

(** The node a name leads to, or the error of the system call: the
    empty name and a missing component are [FileNotFoundError], a
    regular file used as a directory (also by a trailing slash) is
    [NotADirectoryError]; Python refuses a name with a NUL character
    by [ValueError]. *)
Definition locate (files : gmap path node) (p : string) : outcome node :=
  if String.eqb p "" then Raise FileNotFoundError
  else if has_nul p then Raise ValueError
  else
    match walk files [] (components_from "" p) with
    | Raise e => Raise e
    | Ok c =>
        match node_at files c with
        | None => Raise FileNotFoundError
        | Some Dir => Ok Dir
        | Some (File ct) =>
            if ends_slash p then Raise NotADirectoryError else Ok (File ct)
        end
    end.

(** [open(p, 'r')] followed by reading the whole file. *)
Definition open_read (p : string) : M content :=
  modify (add_event (EvOpen p)) ;;;
  s <- get ;;
  match locate (fs s) p with
  | Ok (File c) => ret c
  | Ok Dir => raise IsADirectoryError
  | Raise e => raise e
  end.

Module json_lib.
(** [json.load]: text that is not JSON raises a [ValueError] (a
    [JSONDecodeError] or a [UnicodeDecodeError]). *)
Definition load (c : content) : M json :=
  match c with
  | CJson j => ret j
  | _ => raise ValueError
  end.
End json_lib.

Module os.
Module path.
(** [os.path.exists]. *)
Definition exists_ (p : string) : M bool :=
  s <- get ;;
  ret (bool_decide (is_Some (node_of (fs s) p))).
End path.

(** [os.mkdir] on a component list. *)
Definition mkdir (c : list string) : M unit :=
  s <- get ;;
  match c with
  | [] => raise FileExistsError
  | _ =>
      match fs s !! c with
      | Some _ => raise FileExistsError
      | None =>
          match node_at (fs s) (parent c) with
          | Some Dir => modify (set_fs (insert c Dir))
          | Some (File _) => raise NotADirectoryError
          | None => raise FileNotFoundError
          end
      end
  end.

Definition is_os_error (e : exn) : bool :=
  match e with
  | FileNotFoundError | FileExistsError | NotADirectoryError | IsADirectoryError => true
  | _ => false
  end.

(** [os.makedirs] on the reversed component list [tail :: head]: make
    the missing ancestors first, passing over a [FileExistsError] from
    that recursive call, then [mkdir] the leaf; an [OSError] from that
    [mkdir] is re-raised unless [exist_ok] holds and the leaf is a
    directory. *)
Fixpoint makedirs_rev (rc : list string) (exist_ok : bool) : M unit :=
  match rc with
  | [] => ret tt
  | _ :: rhead =>
      s <- get ;;
      match node_at (fs s) (rev rhead) with
      | Some _ => ret tt
      | None =>
          try_except (makedirs_rev rhead exist_ok)
            (fun e => match e with
                      | FileExistsError => ret tt
                      | _ => raise e
                      end)
      end
  end ;;;
  try_except (mkdir (rev rc))
    (fun e =>
       s <- get ;;
       if is_os_error e
       then (if negb exist_ok || negb (is_dir (node_at (fs s) (rev rc)))
             then raise e else ret tt)
       else raise e).

(** [os.makedirs(name, exist_ok=...)]. *)
Definition makedirs (name : string) (exist_ok : bool) : M unit :=
  match resolve name with
  | Some c => makedirs_rev (rev c) exist_ok
  | None => raise FileNotFoundError
  end.
End os.

(** ** OpenCV *)

(** The values of a C [int], which is how OpenCV takes a coordinate. *)
Definition in_c_int (z : Z) : Prop := -2147483648 <= z < 2147483648.

(** How the binding reads one coordinate: an integer that fits a C
    [int]; Python's [None] leaves the coordinate at 0; anything else
    (a larger integer, a boolean, a string, a list) is rejected. *)
Definition c_int (v : json) : option Z :=
  match v with
  | JInt z =>
      if (-2147483648 <=? z) && (z <? 2147483648) then Some z else None
  | JNull => Some 0
  | _ => None
  end.

Module cv2.
(** [cv2.imread(filename)]: a fresh buffer holding the decoded file,
    or Python's [None] when the file is missing or is not an image, or
    when the name itself is [None].  Any other argument that is not a
    string is rejected by the binding. *)
Definition imread (filename : json) : M (option loc) :=
  match filename with
  | JNull => ret None
  | JStr p =>
      modify (add_event (EvImread p)) ;;;
      s <- get ;;
      match node_of (fs s) p with
      | Some (File (CImage img)) =>
          let b := fresh (dom (images s)) in
          modify (set_images (insert b img)) ;;;
          ret (Some b)
      | _ => ret None
      end
  | _ => raise cv2_error
  end.

(** [cv2.circle(img, center, radius, color, thickness)] draws on the
    buffer in place.  The binding first reads [center] as two C ints
    and raises when it cannot.  Python's [None] for [img] is an empty
    matrix: the call returns and there is nothing to draw on. *)
Definition circle (img : option loc) (center : json * json)
    (radius : Z) (c : color) (thickness : Z) : M unit :=
  s <- get ;;
  match c_int (fst center), c_int (snd center) with
  | Some x, Some y =>
      match img with
      | None => ret tt
      | Some b =>
          match images s !! b with
          | Some im =>
              modify (set_images
                (insert b (Image (picture im)
                                 (marks im ++ [Mark (x, y) radius c thickness]))))
          | None => raise cv2_error
          end
      end
  | _, _ => raise cv2_error
  end.

(** [cv2.imwrite(filename, img)].  [has_encoder] tells whether the
    OpenCV build has a writer for the extension of [filename].  An
    empty image or an unknown extension raises; a file that cannot be
    opened for writing (the name is a directory, or its parent is not
    one) makes the call return [False]. *)
Definition imwrite (has_encoder : string -> bool)
    (filename : string) (img : option loc) : M bool :=
  s <- get ;;
  match img ≫= (fun b => images s !! b) with
  | None => raise cv2_error
  | Some im =>
      if negb (has_encoder filename) then raise cv2_error
      else
        modify (add_event (EvImwrite filename)) ;;;
        match resolve filename with
        | Some c =>
            if negb (is_dir (node_at (fs s) c))
               && is_dir (node_at (fs s) (parent c))
            then modify (set_fs (insert c (File (CImage im)))) ;;; ret true
            else ret false
        | None => ret false
        end
  end.
End cv2.

(** ** The class [VisualTusimple] *)

Definition empty_instance : instance := Instance None None None None.

(** [object.__new__]: a fresh instance without attributes. *)
Definition __new__ : M loc :=
  s <- get ;;
  let self := fresh (dom (instances s)) in
  modify (set_instances (insert self empty_instance)) ;;;
  ret self.

(** A list display [[...]] evaluates to a fresh list object. *)
Definition new_list (l : list color) : M loc :=
  s <- get ;;
  let r := fresh (dom (lists s)) in
  modify (set_lists (insert r l)) ;;;
  ret r.

(** [self.name = v]. *)
Definition setattr (self : loc) (f : instance -> instance) : M unit :=
  modify (set_instances (alter f self)).

(** [self.name]. *)
Definition getattr {A} (self : loc) (name : string)
    (proj : instance -> option A) : M A :=
  s <- get ;;
  match instances s !! self ≫= proj with
  | Some v => ret v
  | None => raise (AttributeError name)
  end.

Definition set_json_path (v : string) (i : instance) : instance :=
  Instance (Some v) (line_colors i) (data i) (image_ref i).
Definition set_line_colors (v : loc) (i : instance) : instance :=
  Instance (json_path i) (Some v) (data i) (image_ref i).
Definition set_data (v : json) (i : instance) : instance :=
  Instance (json_path i) (line_colors i) (Some v) (image_ref i).
Definition set_image (v : option loc) (i : instance) : instance :=
  Instance (json_path i) (line_colors i) (data i) (Some v).

(** The palette used when no [line_colors] is passed. *)
Definition default_colors : list color :=
  [(255, 0, 0); (0, 255, 0); (0, 0, 255)].

(** [def _load_json(self)]: no parameter besides [self]. *)
Definition _load_json (self : loc) (args : list string) : M json :=
  call 0 args
    (p <- getattr self "json_path" json_path ;;
     c <- open_read p ;;
     json_lib.load c).

(** [def _load_image(self)]. *)
Definition _load_image (self : loc) (args : list string) : M (option loc) :=
  call 0 args
    (d <- getattr self "data" data ;;
     p <- lift (subscript d "raw_file") ;;
     cv2.imread p).

(** [def __init__(self, json_path, line_colors=None)]; [line_colors] is
    [None] or a reference to the caller's list. *)
Definition __init__ (self : loc) (json_path_arg : string)
    (line_colors_arg : option loc) : M unit :=
  setattr self (set_json_path json_path_arg) ;;;
  pal <- match line_colors_arg with
         | Some l => ret l
         | None => new_list default_colors
         end ;;
  setattr self (set_line_colors pal) ;;;
  arg <- getattr self "json_path" json_path ;;
  d <- _load_json self [arg] ;;
  setattr self (set_data d) ;;;
  img <- _load_image self [] ;;
  setattr self (set_image img).

(** [VisualTusimple(json_path, line_colors)]. *)
Definition VisualTusimple (json_path_arg : string)
    (line_colors_arg : option loc) : M loc :=
  self <- __new__ ;;
  __init__ self json_path_arg line_colors_arg ;;;
  ret self.

(** [def ensure_file_exists(self, *args, exist_ok=True)]. *)
Definition ensure_file_exists (self : loc) (args : list string)
    (exist_ok : bool) : M unit :=
  for_each args (fun path =>
    e <- os.path.exists_ path ;;
    if negb e then os.makedirs path exist_ok else ret tt).

(** [self.line_colors[i % len(self.line_colors)]]. *)
Definition line_color_at (self : loc) (i : nat) : M color :=
  r <- getattr self "line_colors" line_colors ;;
  s <- get ;;
  match lists s !! r with
  | None => raise TypeError
  | Some pal =>
      match length pal with
      | O => raise ZeroDivisionError
      | n =>
          match pal !! (i mod n)%nat with
          | Some c => ret c
          | None => raise IndexError
          end
      end
  end.

(** [[(x, y) for x, y in zip(lane, h_samples) if x != -2]] on the items
    of the two sequences. *)
Definition lane_points (lane h_samples : list json) : list (json * json) :=
  filter (fun p => ne_int (fst p) (-2) = true) (zip lane h_samples).

(** The body of the loop over [enumerate(lanes)]. *)
Definition draw_lane (self : loc) (h_samples : json) (il : nat * json) : M unit :=
  let '(i, lane) := il in
  line_color <- line_color_at self i ;;
  xs <- lift (iter lane) ;;
  ys <- lift (iter h_samples) ;;
  for_each (lane_points xs ys) (fun point =>
    img <- getattr self "image" image_ref ;;
    cv2.circle img point 3 line_color (-1)).

(** [def draw_lanes(self)]. *)
Definition draw_lanes (self : loc) (args : list string) : M unit :=
  call 0 args
    (d <- getattr self "data" data ;;
     lanes <- lift (subscript d "lanes") ;;
     d' <- getattr self "data" data ;;
     h_samples <- lift (subscript d' "h_samples") ;;
     ls <- lift (iter lanes) ;;
     for_each (enumerate ls) (draw_lane self h_samples)).

Section Writer.
(** Which file names the OpenCV build can encode. *)
Variable has_encoder : string -> bool.

(** [def save_image(self, output_path)]. *)
Definition save_image (self : loc) (args : list string) : M unit :=
  match args with
  | [output_path] =>
      ensure_file_exists self [output_path] true ;;;
      img <- getattr self "image" image_ref ;;
      cv2.imwrite has_encoder output_path img ;;;
      ret tt
  | _ => raise TypeError
  end.

(** [def visualize(self, output_path)]. *)
Definition visualize (self : loc) (args : list string) : M unit :=
  match args with
  | [output_path] =>
      draw_lanes self [] ;;;
      save_image self [output_path]
  | _ => raise TypeError
  end.

(** The script: build the visualizer, then [visualize]. *)
Definition program (json_path_arg output_path : string) : M unit :=
  visualizer <- VisualTusimple json_path_arg None ;;
  visualize visualizer [output_path].

Definition main : M unit :=
  program "" "/path/to/your/***/tusimple/visual".
End Writer.

(** ** Vocabulary of the statements *)

(** A JSON list of integers, and a JSON list of such lists. *)
Definition jints (l : list Z) : json := JList (JInt <$> l).
Definition jlanes (ls : list (list Z)) : json := JList (jints <$> ls).

(** [lane_points] read on integer sequences. *)
Definition int_points (lane h_samples : list Z) : list (Z * Z) :=
  filter (fun p => fst p ≠ -2) (zip lane h_samples).

(** The marker [draw_lane] draws at a point. *)
Definition dot (c : color) (p : Z * Z) : mark := Mark p 3 c (-1).

(** The buffer [b] after the drawing calls [ms]. *)
Definition paint (b : loc) (ms : list mark) (s : state) : state :=
  set_images (alter (fun im => Image (picture im) (marks im ++ ms)) b) s.

(** The instance [self] is fully initialised in [s]: its record is [d],
    its palette the list [pal], its image the buffer [b]. *)
Definition loaded (s : state) (self : loc) (d : json) (pal : list color)
    (b : loc) : Prop :=
  exists inst r,
    instances s !! self = Some inst /\
    data inst = Some d /\
    line_colors inst = Some r /\
    lists s !! r = Some pal /\
    image_ref inst = Some (Some b) /\
    is_Some (images s !! b).

(** The colour of lane [i]. *)
Definition lane_color (pal : list color) (i : nat) : color :=
  nth (i mod length pal) pal (0, 0, 0).

(** The markers of the lanes [ls], the first of which has index [k]. *)
Fixpoint lanes_marks (pal : list color) (hs : list Z) (k : nat)
    (ls : list (list Z)) : list mark :=
  match ls with
  | [] => []
  | lane :: rest =>
      (dot (lane_color pal k) <$> int_points lane hs)
      ++ lanes_marks pal hs (S k) rest
  end.

(** [s'] differs from [s] at most in the image buffers, each of which
    kept its picture and gained markers [m] satisfying [P b m], [b] being
    the buffer. *)
Definition only_drawn (P : loc -> mark -> Prop) (s s' : state) : Prop :=
  instances s' = instances s /\
  lists s' = lists s /\
  fs s' = fs s /\
  log s' = log s /\
  forall b,
    match images s !! b with
    | Some im =>
        exists new, images s' !! b = Some (Image (picture im) (marks im ++ new))
                    /\ Forall (P b) new
    | None => images s' !! b = None
    end.

(** [s'] differs from [s] at most by directories that were missing. *)
Definition only_new_dirs (s s' : state) : Prop :=
  instances s' = instances s /\
  lists s' = lists s /\
  images s' = images s /\
  log s' = log s /\
  forall c, fs s' !! c = fs s !! c \/ (fs s !! c = None /\ fs s' !! c = Some Dir).

(** A name none of whose components is [.] or [..]. *)
Definition no_dot_components (p : string) : Prop :=
  Forall (fun x => x ≠ "." /\ x ≠ "..") (components_from "" p).


(** ** Sample data *)

(** A TuSimple label line with two lanes and three sample rows. *)
Definition sample_record : json :=
  JObj [("lanes", jlanes [[10; -2; 30]; [5; 15; -2]]);
        ("h_samples", jints [100; 200; 300]);
        ("raw_file", JStr "clips/0313/20.jpg")].

(** The same line without its [lanes] field. *)
Definition record_without_lanes : json :=
  JObj [("h_samples", jints [100; 200; 300]);
        ("raw_file", JStr "clips/0313/20.jpg")].

(** A disk holding a label file and the picture it names. *)
Definition sample_disk (label : json) : gmap path node :=
  {[ ["label.json"] := File (CJson label);
     ["clips"] := Dir;
     ["clips"; "0313"] := Dir;
     ["clips"; "0313"; "20.jpg"] := File (CImage (Image "20.jpg" [])) ]}.

(** A store in which instance 1 holds [label], the default palette
    (list 1) and the decoded picture (buffer 1). *)
Definition sample_state (label : json) : state :=
  State {[ 1%positive := Instance (Some "label.json") (Some 1%positive)
                                  (Some label) (Some (Some 1%positive)) ]}
        {[ 1%positive := default_colors ]}
        {[ 1%positive := Image "20.jpg" [] ]}
        (sample_disk label)
        [].

(** A fresh interpreter: the disk only. *)
Definition fresh_state (label : json) : state :=
  State ∅ ∅ ∅ (sample_disk label) [].

(** The sample store after a failed [cv2.imread]: [self.image] is
    Python's [None] and there is no buffer. *)
Definition state_without_image (label : json) : state :=
  State {[ 1%positive := Instance (Some "label.json") (Some 1%positive)
                                  (Some label) (Some None) ]}
        {[ 1%positive := default_colors ]}
        ∅
        (sample_disk label)
        [].


(** * Lemmas *)

(** ** The monad *)

Lemma bind_ok {A B} (m : M A) (k : A -> M B) s a s' :
  m s = (Ok a, s') -> bind m k s = k a s'.
Proof. intros H. unfold bind. now rewrite H. Qed.


(** ** Painting *)

Lemma paint_nil b s : paint b [] s = s.
Proof.
  destruct s as [ins ls ims f lg]. unfold paint, set_images. simpl. f_equal.
  apply map_eq. intros i.
  destruct (decide (b = i)) as [->|Hne]; [|now rewrite lookup_alter_ne].
  rewrite lookup_alter_eq.
  destruct (ims !! i) as [[p ms]|]; simpl; [|done]. now rewrite app_nil_r.
Qed.

Lemma paint_paint b ms1 ms2 s :
  paint b ms2 (paint b ms1 s) = paint b (ms1 ++ ms2) s.
Proof.
  destruct s as [ins ls ims f lg]. unfold paint, set_images. simpl. f_equal.
  apply map_eq. intros i.
  destruct (decide (b = i)) as [->|Hne]; [|now rewrite !lookup_alter_ne].
  rewrite !lookup_alter_eq.
  destruct (ims !! i) as [[p ms]|]; simpl; [|done]. now rewrite app_assoc.
Qed.

Lemma paint_instances b ms s : instances (paint b ms s) = instances s.
Proof. reflexivity. Qed.


Lemma paint_images_lookup b ms s :
  images (paint b ms s) !! b
  = (fun im => Image (picture im) (marks im ++ ms)) <$> images s !! b.
Proof. unfold paint. simpl. now rewrite lookup_alter_eq. Qed.

Lemma loaded_paint s self d pal b ms :
  loaded s self d pal b -> loaded (paint b ms s) self d pal b.
Proof.
  intros (inst & r & Hi & Hd & Hl & Hp & Him & [im Hb]).
  exists inst, r. repeat split; try assumption.
  rewrite paint_images_lookup, Hb. simpl. eauto.
Qed.

Lemma alter_lookup_insert {A} (f : A -> A) (m : gmap loc A) b x :
  m !! b = Some x -> <[b := f x]> m = alter f b m.
Proof.
  intros H. apply map_eq. intros i.
  destruct (decide (b = i)) as [->|Hne].
  - now rewrite lookup_insert_eq, lookup_alter_eq, H.
  - now rewrite lookup_insert_ne, lookup_alter_ne.
Qed.

(** ** Attribute reads leave the state alone *)

Lemma getattr_state {A} self name (proj : instance -> option A) s o s' :
  getattr self name proj s = (o, s') -> s' = s.
Proof.
  unfold getattr, bind, get. simpl.
  destruct (instances s !! self ≫= proj); unfold ret, raise; now intros [= _ <-].
Qed.

Lemma getattr_ok {A} self name (proj : instance -> option A) s inst v :
  instances s !! self = Some inst -> proj inst = Some v ->
  getattr self name proj s = (Ok v, s).
Proof.
  intros Hi Hp. unfold getattr, bind, get. simpl. rewrite Hi. simpl.
  now rewrite Hp.
Qed.


(** ** The integer reading of [lane_points] *)

Lemma lane_points_ints lane hs :
  lane_points (JInt <$> lane) (JInt <$> hs)
  = prod_map JInt JInt <$> int_points lane hs.
Proof.
  unfold lane_points, int_points. revert hs.
  induction lane as [|x lane IH]; intros [|y hs]; simpl; try reflexivity.
  destruct (decide (x = -2)) as [->|Hne].
  - rewrite !filter_cons_False; [apply IH | simpl; lia | simpl; discriminate].
  - rewrite !filter_cons_True; [|simpl; lia|simpl].
    + simpl. f_equal. apply IH.
    + apply negb_true_iff, Z.eqb_neq. assumption.
Qed.


Lemma int_points_count lane hs :
  length lane = length hs ->
  length (int_points lane hs) = length (filter (fun x => x ≠ -2) lane).
Proof.
  unfold int_points. revert hs.
  induction lane as [|x lane IH]; intros [|y hs] Hlen; simpl in *;
    try discriminate; [reflexivity|].
  injection Hlen as Hlen.
  destruct (decide (x = -2)) as [->|Hne].
  - rewrite !filter_cons_False by (simpl; lia). now apply IH.
  - rewrite !filter_cons_True by (simpl; lia). simpl. f_equal. now apply IH.
Qed.



Lemma int_points_lookup lane hs x y :
  (x, y) ∈ int_points lane hs ->
  x ≠ -2 /\ exists k, lane !! k = Some x /\ hs !! k = Some y
                      /\ (k < Nat.min (length lane) (length hs))%nat.
Proof.
  unfold int_points. intros [Hx Hin]%list_elem_of_filter. split; [exact Hx|].
  apply list_elem_of_lookup in Hin as [k Hk].
  apply lookup_zip_with_Some in Hk as (a & c & [= <- <-] & Ha & Hc).
  exists k. repeat split; try assumption.
  apply lookup_lt_Some in Ha. apply lookup_lt_Some in Hc. lia.
Qed.

(** Distinct rows give distinct points: the list of points is then a set. *)
Lemma int_points_NoDup lane hs : NoDup hs -> NoDup (int_points lane hs).
Proof.
  intros Hnd. unfold int_points. apply NoDup_filter.
  revert lane. induction Hnd as [|y hs Hy _ IH]; intros [|x lane]; simpl;
    try constructor.
  - intros Hin. apply Hy.
    apply list_elem_of_lookup in Hin as [k Hk].
    apply lookup_zip_with_Some in Hk as (a & c & [= <- <-] & _ & Hc).
    apply list_elem_of_lookup. eauto.
  - apply IH.
Qed.

(** ** Drawing on a loaded instance *)

Lemma c_int_in_range z : in_c_int z -> c_int (JInt z) = Some z.
Proof.
  intros [H1 H2]. unfold c_int.
  now rewrite (proj2 (Z.leb_le _ _) H1), (proj2 (Z.ltb_lt _ _) H2).
Qed.

Lemma int_points_in_range lane hs :
  Forall in_c_int lane -> Forall in_c_int hs ->
  Forall (fun p => in_c_int (fst p) /\ in_c_int (snd p)) (int_points lane hs).
Proof.
  intros Hl Hh. apply Forall_forall. intros [x y] Hin.
  apply int_points_lookup in Hin as (_ & k & Hx & Hy & _).
  split; cbn.
  - eapply Forall_lookup_1; [exact Hl | exact Hx].
  - eapply Forall_lookup_1; [exact Hh | exact Hy].
Qed.

Lemma circle_ok b s x y r c t :
  in_c_int x -> in_c_int y ->
  is_Some (images s !! b) ->
  cv2.circle (Some b) (JInt x, JInt y) r c t s
  = (Ok tt, paint b [Mark (x, y) r c t] s).
Proof.
  intros Hx Hy [im Hb]. unfold cv2.circle, bind, get. cbv beta iota.
  cbn [fst snd]. rewrite (c_int_in_range x Hx), (c_int_in_range y Hy), Hb.
  unfold modify, paint, set_images. do 2 f_equal.
  now apply (alter_lookup_insert
               (fun im => Image (picture im) (marks im ++ [Mark (x, y) r c t]))).
Qed.

Lemma draw_points_ok self c b s (pts : list (Z * Z)) :
  Forall (fun p => in_c_int (fst p) /\ in_c_int (snd p)) pts ->
  instances s !! self ≫= image_ref = Some (Some b) ->
  is_Some (images s !! b) ->
  for_each (prod_map JInt JInt <$> pts)
    (fun point =>
       img <- getattr self "image" image_ref ;;
       cv2.circle img point 3 c (-1)) s
  = (Ok tt, paint b (dot c <$> pts) s).
Proof.
  intros Hr. revert s. induction Hr as [|[x y] pts [Hx Hy] _ IH];
    intros s Hi Hb; simpl.
  - now rewrite paint_nil.
  - destruct (instances s !! self) as [inst|] eqn:Hinst; [|discriminate].
    simpl in Hi.
    erewrite bind_ok; cycle 1.
    { erewrite bind_ok by (eapply getattr_ok; eassumption).
      now apply circle_ok. }
    rewrite IH.
    + now rewrite paint_paint.
    + rewrite paint_instances, Hinst. exact Hi.
    + rewrite paint_images_lookup. destruct Hb as [im ->]. simpl. eauto.
Qed.

Lemma lane_color_lookup pal i :
  pal ≠ [] -> pal !! (i mod length pal)%nat = Some (lane_color pal i).
Proof.
  intros Hne. unfold lane_color.
  assert (Hlt : (i mod length pal < length pal)%nat).
  { apply Nat.mod_upper_bound. now destruct pal. }
  apply lookup_lt_is_Some_2 in Hlt as [c Hc].
  rewrite Hc. f_equal. symmetry. now apply nth_lookup_Some.
Qed.

Lemma line_color_at_ok s self inst r pal i :
  instances s !! self = Some inst ->
  line_colors inst = Some r ->
  lists s !! r = Some pal ->
  pal ≠ [] ->
  line_color_at self i s = (Ok (lane_color pal i), s).
Proof.
  intros Hi Hr Hp Hne. unfold line_color_at.
  erewrite bind_ok by (eapply getattr_ok; eassumption).
  unfold bind, get. cbv beta iota. rewrite Hp.
  pose proof (lane_color_lookup pal i Hne) as Hc.
  destruct pal as [|c0 pal']; [done|].
  cbn [length] in *. now rewrite Hc.
Qed.

Lemma line_color_at_empty s self inst r i :
  instances s !! self = Some inst ->
  line_colors inst = Some r ->
  lists s !! r = Some [] ->
  line_color_at self i s = (Raise ZeroDivisionError, s).
Proof.
  intros Hi Hr Hp. unfold line_color_at.
  erewrite bind_ok by (eapply getattr_ok; eassumption).
  unfold bind, get. simpl. now rewrite Hp.
Qed.

(** An empty palette stops the first lane: [i % 0]. *)
Lemma draw_lanes_empty_palette s self d b lane ls h :
  loaded s self d [] b ->
  subscript d "lanes" = Ok (JList (lane :: ls)) ->
  subscript d "h_samples" = Ok h ->
  draw_lanes self [] s = (Raise ZeroDivisionError, s).
Proof.
  intros (inst & r & Hi & Hd & Hl & Hp & _) Hlanes Hh.
  unfold draw_lanes, call. cbn [length Nat.eqb].
  erewrite bind_ok by (eapply getattr_ok; eassumption).
  unfold lift at 1. unfold bind at 1. rewrite Hlanes.
  erewrite bind_ok by (eapply getattr_ok; eassumption).
  unfold lift at 1. unfold bind at 1. rewrite Hh.
  unfold iter, lift. unfold bind at 1. cbn [enumerate for_each length seq zip zip_with].
  unfold bind at 1. unfold draw_lane. unfold bind at 1.
  now erewrite line_color_at_empty by eassumption.
Qed.

Lemma draw_lane_ints s self d pal b hs i lane :
  loaded s self d pal b ->
  pal ≠ [] ->
  Forall in_c_int lane ->
  Forall in_c_int hs ->
  draw_lane self (jints hs) (i, jints lane) s
  = (Ok tt, paint b (dot (lane_color pal i) <$> int_points lane hs) s).
Proof.
  intros (inst & r & Hi & Hd & Hl & Hp & Him & Hb) Hne Hrl Hrh.
  unfold draw_lane.
  erewrite bind_ok by (eapply line_color_at_ok; eassumption).
  unfold jints, iter, lift. unfold bind at 1 2.
  rewrite lane_points_ints.
  apply draw_points_ok; [now apply int_points_in_range| |exact Hb].
  rewrite Hi. exact Him.
Qed.

Lemma draw_lanes_loop s self d pal b hs k ls :
  loaded s self d pal b ->
  pal ≠ [] ->
  Forall (Forall in_c_int) ls ->
  Forall in_c_int hs ->
  for_each (zip (seq k (length ls)) (jints <$> ls)) (draw_lane self (jints hs)) s
  = (Ok tt, paint b (lanes_marks pal hs k ls) s).
Proof.
  intros Hld Hne Hrl Hrh. revert k s Hld.
  induction Hrl as [|lane ls Hlane _ IH]; intros k s Hld; simpl.
  - now rewrite paint_nil.
  - erewrite bind_ok by (eapply draw_lane_ints; eassumption).
    rewrite IH by now apply loaded_paint.
    now rewrite paint_paint.
Qed.

Lemma draw_lanes_ints s self d pal b ls hs :
  loaded s self d pal b ->
  subscript d "lanes" = Ok (jlanes ls) ->
  subscript d "h_samples" = Ok (jints hs) ->
  pal ≠ [] ->
  Forall (Forall in_c_int) ls ->
  Forall in_c_int hs ->
  draw_lanes self [] s = (Ok tt, paint b (lanes_marks pal hs 0 ls) s).
Proof.
  intros Hld Hlanes Hhs Hne Hrl Hrh.
  pose proof Hld as (inst & r & Hi & Hd & _).
  unfold draw_lanes, call. simpl.
  erewrite bind_ok by (eapply getattr_ok; eassumption).
  unfold lift at 1. unfold bind at 1. rewrite Hlanes.
  erewrite bind_ok by (eapply getattr_ok; eassumption).
  unfold lift at 1. unfold bind at 1. rewrite Hhs.
  unfold jlanes, iter, lift. unfold bind at 1.
  unfold enumerate. rewrite length_fmap.
  now apply draw_lanes_loop with (d := d).
Qed.



(** ** What drawing can change *)

Lemma only_drawn_refl P s : only_drawn P s s.
Proof.
  repeat split. intros b. destruct (images s !! b) as [[p ms]|]; [|done].
  exists []. simpl. now rewrite app_nil_r.
Qed.

Lemma only_drawn_trans P s1 s2 s3 :
  only_drawn P s1 s2 -> only_drawn P s2 s3 -> only_drawn P s1 s3.
Proof.
  intros (Hi1 & Hl1 & Hf1 & Hg1 & Hb1) (Hi2 & Hl2 & Hf2 & Hg2 & Hb2).
  repeat split; try congruence.
  intros b. specialize (Hb1 b). specialize (Hb2 b).
  destruct (images s1 !! b) as [im|].
  - destruct Hb1 as (new1 & Hb1 & HP1). rewrite Hb1 in Hb2. simpl in Hb2.
    destruct Hb2 as (new2 & Hb2 & HP2).
    exists (new1 ++ new2). rewrite app_assoc. split; [exact Hb2|].
    now apply Forall_app.
  - now rewrite Hb1 in Hb2.
Qed.

Lemma only_drawn_weaken (P Q : loc -> mark -> Prop) s s' :
  (forall b m, P b m -> Q b m) -> only_drawn P s s' -> only_drawn Q s s'.
Proof.
  intros HPQ (Hi & Hl & Hf & Hg & Hb). repeat split; try assumption.
  intros b. specialize (Hb b). destruct (images s !! b); [|exact Hb].
  destruct Hb as (new & Hb & HP). exists new. split; [exact Hb|].
  eapply Forall_impl; eauto.
Qed.

(** A buffer on which [P] allows no marker is left as it was. *)
Lemma only_drawn_untouched P s s' b :
  only_drawn P s s' -> (forall m, ~ P b m) -> images s' !! b = images s !! b.
Proof.
  intros (_ & _ & _ & _ & Hb) Hno. specialize (Hb b).
  destruct (images s !! b) as [[p ms]|]; [|exact Hb].
  destruct Hb as ([|m new] & Hb & HP).
  - rewrite Hb. simpl. now rewrite app_nil_r.
  - apply Forall_cons in HP as [HP _]. now apply Hno in HP.
Qed.

Lemma circle_only_drawn (P : loc -> mark -> Prop) img pt r c t s o s' :
  (forall b x y, img = Some b -> P b (Mark (x, y) r c t)) ->
  cv2.circle img pt r c t s = (o, s') -> only_drawn P s s'.
Proof.
  intros HP. unfold cv2.circle, bind, get. cbv beta iota.
  destruct (c_int (fst pt)) as [x|]; [|intros [= _ <-]; apply only_drawn_refl].
  destruct (c_int (snd pt)) as [y|]; [|intros [= _ <-]; apply only_drawn_refl].
  destruct img as [b|]; [|intros [= _ <-]; apply only_drawn_refl].
  destruct (images s !! b) as [im|] eqn:Hb;
    [|intros [= _ <-]; apply only_drawn_refl].
  unfold modify. intros [= _ <-]. repeat split. intros b'. simpl.
  destruct (decide (b = b')) as [<-|Hne].
  - rewrite Hb, lookup_insert_eq. eexists. split; [reflexivity|].
    repeat constructor. now apply HP.
  - rewrite lookup_insert_ne by assumption.
    destruct (images s !! b') as [[p ms]|]; [|done].
    exists []. simpl. now rewrite app_nil_r.
Qed.

Lemma for_each_only_drawn {A} (P : loc -> mark -> Prop) (body : A -> M unit)
    xs s :
  (forall x s0 o s1,
     instances s0 = instances s -> lists s0 = lists s ->
     body x s0 = (o, s1) -> only_drawn P s0 s1) ->
  forall o s', for_each xs body s = (o, s') -> only_drawn P s s'.
Proof.
  intros Hbody.
  enough (H : forall s0 o s',
             instances s0 = instances s -> lists s0 = lists s ->
             for_each xs body s0 = (o, s') -> only_drawn P s0 s').
  { intros o s'. now apply H. }
  induction xs as [|x xs IH]; intros s0 o s' Hi Hl; simpl.
  - intros [= _ <-]. apply only_drawn_refl.
  - unfold bind. destruct (body x s0) as [[[]|e] s1] eqn:Hx.
    + intros H. pose proof (Hbody _ _ _ _ Hi Hl Hx) as Hd.
      eapply only_drawn_trans; [exact Hd|].
      destruct Hd as (Hi1 & Hl1 & _). eapply IH; [| |exact H]; congruence.
    + intros [= _ <-]. eauto.
Qed.

Lemma getattr_inv {A} self name (proj : instance -> option A) s v s' :
  getattr self name proj s = (Ok v, s') ->
  instances s !! self ≫= proj = Some v.
Proof.
  unfold getattr, bind, get. cbv beta iota.
  destruct (instances s !! self ≫= proj); [|discriminate].
  unfold ret. now intros [= ->].
Qed.

(** [line_color_at] reads the instance and its palette only. *)
Lemma line_color_at_state self i s o s' :
  line_color_at self i s = (o, s') -> s' = s.
Proof.
  unfold line_color_at, bind.
  destruct (getattr self "line_colors" line_colors s) as [[r|e] s1] eqn:Hg;
    apply getattr_state in Hg as ->; [|now intros [= _ <-]].
  unfold get. cbv beta iota.
  destruct (lists s !! r) as [pal|]; [|now intros [= _ <-]].
  destruct (length pal); [now intros [= _ <-]|].
  destruct (pal !! _); now intros [= _ <-].
Qed.

Lemma draw_lane_only_drawn self h i lane s o s' :
  draw_lane self h (i, lane) s = (o, s') ->
  only_drawn
    (fun b m => instances s !! self ≫= image_ref = Some (Some b)
                /\ radius m = 3 /\ thickness m = -1
                /\ line_color_at self i s = (Ok (mark_color m), s)) s s'.
Proof.
  unfold draw_lane. unfold bind at 1.
  destruct (line_color_at self i s) as [[c|e] s1] eqn:Hc;
    pose proof (line_color_at_state _ _ _ _ _ Hc) as ->;
    [|intros [= _ <-]; apply only_drawn_refl].
  unfold lift. unfold bind at 1.
  destruct (iter lane) as [xs|e]; [|intros [= _ <-]; apply only_drawn_refl].
  unfold bind at 1.
  destruct (iter h) as [ys|e]; [|intros [= _ <-]; apply only_drawn_refl].
  apply for_each_only_drawn. clear o s'. intros pt s0 o s' Hi0 _. unfold bind.
  destruct (getattr self "image" image_ref s0) as [[img|e] s1] eqn:Hg;
    [|apply getattr_state in Hg as ->; intros [= _ <-]; apply only_drawn_refl].
  pose proof (getattr_inv _ _ _ _ _ _ Hg) as Himg.
  apply getattr_state in Hg as ->.
  apply circle_only_drawn. intros b x y ->. simpl.
  rewrite <- Hi0. auto.
Qed.

Lemma draw_lanes_only_drawn self args s o s' :
  draw_lanes self args s = (o, s') ->
  only_drawn
    (fun b m => instances s !! self ≫= image_ref = Some (Some b)
                /\ radius m = 3 /\ thickness m = -1) s s'.
Proof.
  unfold draw_lanes, call.
  destruct (length args =? 0)%nat;
    [|intros [= _ <-]; apply only_drawn_refl].
  unfold bind at 1.
  destruct (getattr self "data" data s) as [[d|e] s1] eqn:Hg;
    apply getattr_state in Hg as ->;
    [|intros [= _ <-]; apply only_drawn_refl].
  unfold lift. unfold bind at 1.
  destruct (subscript d "lanes") as [lanes|e];
    [|intros [= _ <-]; apply only_drawn_refl].
  unfold bind at 1.
  destruct (getattr self "data" data s) as [[d'|e] s1] eqn:Hg;
    apply getattr_state in Hg as ->;
    [|intros [= _ <-]; apply only_drawn_refl].
  unfold bind at 1.
  destruct (subscript d' "h_samples") as [h|e];
    [|intros [= _ <-]; apply only_drawn_refl].
  unfold bind at 1.
  destruct (iter lanes) as [ls|e]; [|intros [= _ <-]; apply only_drawn_refl].
  apply for_each_only_drawn. clear o s'. intros [i lane] s0 o s' Hi0 _ H.
  apply draw_lane_only_drawn in H.
  eapply only_drawn_weaken; [|exact H]. simpl. rewrite Hi0. intuition.
Qed.

(** ** Directories *)

Lemma only_new_dirs_refl s : only_new_dirs s s.
Proof. repeat split. intros c. now left. Qed.

Lemma only_new_dirs_trans s1 s2 s3 :
  only_new_dirs s1 s2 -> only_new_dirs s2 s3 -> only_new_dirs s1 s3.
Proof.
  intros (Hi1 & Hl1 & Hm1 & Hg1 & Hf1) (Hi2 & Hl2 & Hm2 & Hg2 & Hf2).
  repeat split; try congruence.
  intros c. destruct (Hf1 c) as [H1|[H1 H1']], (Hf2 c) as [H2|[H2 H2']].
  - left. congruence.
  - right. split; congruence.
  - right. split; congruence.
  - congruence.
Qed.

Lemma mkdir_only_new_dirs c s o s' :
  os.mkdir c s = (o, s') -> only_new_dirs s s'.
Proof.
  unfold os.mkdir, bind, get. cbv beta iota.
  destruct c as [|x c]; [intros [= _ <-]; apply only_new_dirs_refl|].
  destruct (fs s !! (x :: c)) as [n|] eqn:Hc;
    [intros [= _ <-]; apply only_new_dirs_refl|].
  destruct (node_at (fs s) (parent (x :: c))) as [[|ct]|];
    try (intros [= _ <-]; apply only_new_dirs_refl).
  unfold modify. intros [= _ <-]. repeat split. intros c'. simpl.
  destruct (decide (x :: c = c')) as [<-|Hne].
  - right. now rewrite lookup_insert_eq.
  - left. now rewrite lookup_insert_ne.
Qed.

Lemma mkdir_ok_dir c s s' :
  os.mkdir c s = (Ok tt, s') -> is_dir (node_at (fs s') c) = true.
Proof.
  unfold os.mkdir, bind, get. cbv beta iota.
  destruct c as [|x c]; [discriminate|].
  destruct (fs s !! (x :: c)) as [n|]; [discriminate|].
  destruct (node_at (fs s) (parent (x :: c))) as [[|ct]|]; try discriminate.
  unfold modify. intros [= <-]. simpl. now rewrite lookup_insert_eq.
Qed.

Lemma makedirs_rev_only_new_dirs rc ok s o s' :
  os.makedirs_rev rc ok s = (o, s') -> only_new_dirs s s'.
Proof.
  revert s o s'. induction rc as [|x rhead IH]; intros s o s'.
  - cbn [os.makedirs_rev]. unfold bind at 1. unfold ret at 1.
    unfold try_except.
    destruct (os.mkdir _ s) as [[[]|e] s1] eqn:Hm;
      apply mkdir_only_new_dirs in Hm; [now intros [= _ <-]|].
    unfold bind, get. cbv beta iota.
    destruct (os.is_os_error e); [|now intros [= _ <-]].
    destruct (_ || _); now intros [= _ <-].
  - cbn [os.makedirs_rev]. unfold bind at 1.
    destruct (bind get _ s) as [[[]|e0] s1] eqn:Hh.
    + assert (Hs1 : only_new_dirs s s1).
      { revert Hh. unfold bind, get. cbv beta iota.
        destruct (node_at (fs s) (rev rhead)); [intros [= <-]; apply only_new_dirs_refl|].
        unfold try_except.
        destruct (os.makedirs_rev rhead ok s) as [[[]|e] s2] eqn:Hr;
          apply IH in Hr; [now intros [= <-]|].
        destruct e; now intros [= <-]. }
      unfold try_except.
      destruct (os.mkdir _ s1) as [[[]|e] s2] eqn:Hm;
        apply mkdir_only_new_dirs in Hm.
      * intros [= _ <-]. eapply only_new_dirs_trans; eauto.
      * unfold bind, get. cbv beta iota.
        destruct (os.is_os_error e);
          [|intros [= _ <-]; eapply only_new_dirs_trans; eauto].
        destruct (_ || _); intros [= _ <-];
          eapply only_new_dirs_trans; eauto.
    + intros [= _ <-]. revert Hh. unfold bind, get. cbv beta iota.
      destruct (node_at (fs s) (rev rhead)); [discriminate|].
      unfold try_except.
      destruct (os.makedirs_rev rhead ok s) as [[[]|e] s2] eqn:Hr;
        apply IH in Hr; [discriminate|].
      destruct e; now intros [= _ <-].
Qed.

Lemma makedirs_rev_ok_dir rc ok s s' :
  os.makedirs_rev rc ok s = (Ok tt, s') ->
  is_dir (node_at (fs s') (rev rc)) = true.
Proof.
  assert (Hleaf : forall s1,
    try_except (os.mkdir (rev rc))
      (fun e =>
         s <- get ;;
         if os.is_os_error e
         then (if negb ok || negb (is_dir (node_at (fs s) (rev rc)))
               then raise e else ret tt)
         else raise e) s1 = (Ok tt, s') ->
    is_dir (node_at (fs s') (rev rc)) = true).
  { intros s1. unfold try_except.
    destruct (os.mkdir _ s1) as [[[]|e] s2] eqn:Hm;
      [intros [= <-]; now apply mkdir_ok_dir in Hm|].
    unfold bind, get. cbv beta iota.
    destruct (os.is_os_error e); [|discriminate].
    destruct (is_dir _) eqn:Hd; [|now rewrite orb_true_r].
    destruct ok; [|discriminate]. now intros [= <-]. }
  destruct rc as [|x rhead]; cbn [os.makedirs_rev]; unfold bind at 1.
  - unfold ret at 1. apply Hleaf.
  - destruct (bind get _ s) as [[[]|e0] s1]; [|discriminate]. apply Hleaf.
Qed.

Lemma exists_true s p :
  is_Some (node_of (fs s) p) -> os.path.exists_ p s = (Ok true, s).
Proof.
  intros H. unfold os.path.exists_, bind, get, ret. cbv beta iota.
  now rewrite bool_decide_eq_true_2.
Qed.

Lemma exists_false s p :
  node_of (fs s) p = None -> os.path.exists_ p s = (Ok false, s).
Proof.
  intros H. unfold os.path.exists_, bind, get, ret. cbv beta iota.
  rewrite bool_decide_eq_false_2; [reflexivity|].
  rewrite H. now intros [? ?].
Qed.

Lemma ensure_existing self p ok s :
  is_Some (node_of (fs s) p) ->
  ensure_file_exists self [p] ok s = (Ok tt, s).
Proof.
  intros H. unfold ensure_file_exists. cbn [for_each].
  erewrite bind_ok; [reflexivity|].
  erewrite bind_ok by now apply exists_true. reflexivity.
Qed.

Lemma ensure_missing self p ok s :
  node_of (fs s) p = None ->
  ensure_file_exists self [p] ok s
  = (os.makedirs p ok ;;; ret tt) s.
Proof.
  intros H. unfold ensure_file_exists. cbn [for_each].
  unfold bind at 1 3.
  erewrite bind_ok by now apply exists_false. reflexivity.
Qed.

Lemma makedirs_ok_exists p ok s s' :
  os.makedirs p ok s = (Ok tt, s') -> is_dir (node_of (fs s') p) = true.
Proof.
  unfold os.makedirs, node_of. destruct (resolve p) as [c|]; [|discriminate].
  intros H. apply makedirs_rev_ok_dir in H. now rewrite rev_involutive in H.
Qed.

Lemma makedirs_only_new_dirs p ok s o s' :
  os.makedirs p ok s = (o, s') -> only_new_dirs s s'.
Proof.
  unfold os.makedirs. destruct (resolve p) as [c|].
  - apply makedirs_rev_only_new_dirs.
  - intros [= _ <-]. apply only_new_dirs_refl.
Qed.

Lemma ensure_ok_exists self p ok s s' :
  ensure_file_exists self [p] ok s = (Ok tt, s') ->
  is_Some (node_of (fs s') p)
  /\ (node_of (fs s) p = None -> is_dir (node_of (fs s') p) = true).
Proof.
  destruct (node_of (fs s) p) as [n|] eqn:Hn.
  - rewrite ensure_existing by (rewrite Hn; eauto).
    intros [= <-]. rewrite Hn. split; [eauto|discriminate].
  - rewrite ensure_missing by assumption. unfold bind.
    destruct (os.makedirs p ok s) as [[[]|e] s1] eqn:Hm; [|discriminate].
    unfold ret. intros [= <-]. apply makedirs_ok_exists in Hm.
    split; [|now intros _].
    destruct (node_of (fs s1) p); [eauto|discriminate].
Qed.

Lemma ensure_only_new_dirs self p ok s o s' :
  ensure_file_exists self [p] ok s = (o, s') -> only_new_dirs s s'.
Proof.
  destruct (node_of (fs s) p) as [n|] eqn:Hn.
  - rewrite ensure_existing by (rewrite Hn; eauto).
    intros [= _ <-]. apply only_new_dirs_refl.
  - rewrite ensure_missing by assumption. unfold bind.
    destruct (os.makedirs p ok s) as [[[]|e] s1] eqn:Hm;
      apply makedirs_only_new_dirs in Hm; now intros [= _ <-].
Qed.

(** ** Writing the picture *)

Lemma imwrite_on_directory enc out c img s o s' :
  resolve out = Some c ->
  is_dir (node_at (fs s) c) = true ->
  cv2.imwrite enc out img s = (o, s') ->
  fs s' = fs s /\ o ≠ Ok true.
Proof.
  intros Hc Hd. unfold cv2.imwrite, bind, get. cbv beta iota.
  destruct (img ≫= _) as [im|]; [|now intros [= <- <-]].
  destruct (negb (enc out)); [now intros [= <- <-]|].
  unfold modify. cbv beta iota. rewrite Hc. cbn [fs add_event].
  rewrite Hd. simpl. now intros [= <- <-].
Qed.

Lemma save_image_missing_path enc self out c s o s' :
  resolve out = Some c ->
  node_of (fs s) out = None ->
  save_image enc self [out] s = (o, s') ->
  (fs s' !! c = None \/ fs s' !! c = Some Dir)
  /\ (o = Ok tt -> fs s' !! c = Some Dir).
Proof.
  intros Hc Hn. unfold save_image. unfold bind at 1.
  assert (Hnil : c ≠ [] /\ fs s !! c = None).
  { unfold node_of in Hn. rewrite Hc in Hn. now destruct c. }
  destruct Hnil as [Hnil Hfs].
  destruct (ensure_file_exists self [out] true s) as [[[]|e] s1] eqn:He.
  - apply ensure_ok_exists in He as [_ Hd]. specialize (Hd Hn).
    unfold node_of in Hd. rewrite Hc in Hd.
    assert (Hdir : fs s1 !! c = Some Dir).
    { destruct c; [done|]. simpl in Hd.
      destruct (fs s1 !! (s0 :: c)) as [[|]|]; done. }
    unfold bind at 1.
    destruct (getattr self "image" image_ref s1) as [[img|e] s2] eqn:Hg;
      apply getattr_state in Hg as ->; [|intros [= <- <-]; split; [auto|done]].
    unfold bind.
    destruct (cv2.imwrite enc out img s1) as [[w|e] s2] eqn:Hw;
      apply (imwrite_on_directory _ _ c) in Hw as [Hw _]; try assumption;
      unfold ret; intros [= <- <-]; rewrite Hw; auto.
  - apply ensure_only_new_dirs in He as (_ & _ & _ & _ & Hf).
    intros [= <- <-]. split; [|discriminate].
    destruct (Hf c) as [H|[_ H]]; [left; congruence|now right].
Qed.

(** ** The constructor *)

Lemma VisualTusimple_raises jp lc s :
  let self := fresh (dom (instances s)) in
  let pal := match lc with
             | Some l => l
             | None => fresh (dom (lists s))
             end in
  VisualTusimple jp lc s
  = (Raise TypeError,
     State (<[self := Instance (Some jp) (Some pal) None None]> (instances s))
           (match lc with
            | Some _ => lists s
            | None => <[pal := default_colors]> (lists s)
            end)
           (images s) (fs s) (log s)).
Proof.
  intros self pal. unfold VisualTusimple, __new__, __init__.
  unfold bind at 1. unfold bind at 1. unfold get at 1. cbv beta iota.
  unfold bind at 1. unfold modify at 1. cbv beta iota.
  unfold ret at 1. fold self.
  set (s1 := set_instances (insert self empty_instance) s).
  unfold bind at 1. unfold bind at 1. unfold setattr at 1, modify at 1.
  cbv beta iota.
  set (s2 := set_instances (alter (set_json_path jp) self) s1).
  assert (Hfinal : forall s3 r,
    instances s3 = instances s2 ->
    (setattr self (set_line_colors r) ;;;
     arg <- getattr self "json_path" json_path ;;
     d <- _load_json self [arg] ;;
     setattr self (set_data d) ;;;
     img <- _load_image self [] ;;
     setattr self (set_image img)) s3
    = (Raise TypeError,
       State (<[self := Instance (Some jp) (Some r) None None]> (instances s))
             (lists s3) (images s3) (fs s3) (log s3))).
  { intros s3 r Hs3. unfold bind at 1. unfold setattr at 1, modify at 1.
    cbv beta iota.
    assert (Hinst : instances (set_instances (alter (set_line_colors r) self) s3)
                    = <[self := Instance (Some jp) (Some r) None None]> (instances s)).
    { cbn [instances set_instances]. rewrite Hs3. unfold s2, s1.
      cbn [instances set_instances]. apply map_eq. intros i.
      destruct (decide (self = i)) as [<-|Hne].
      - now rewrite !lookup_alter_eq, !lookup_insert_eq.
      - now rewrite !lookup_alter_ne, !lookup_insert_ne by assumption. }
    erewrite bind_ok; cycle 1.
    { eapply getattr_ok with (v := jp).
      - rewrite Hinst. apply lookup_insert_eq.
      - reflexivity. }
    unfold bind, _load_json, call, raise. cbn [length Nat.eqb].
    now rewrite <- Hinst. }
  destruct lc as [l|].
  - unfold bind at 1. unfold ret at 1. now rewrite Hfinal.
  - unfold bind at 1. unfold new_list. unfold bind at 1. unfold get at 1.
    cbv beta iota. unfold bind at 1. unfold modify at 1. cbv beta iota.
    unfold ret at 1. now rewrite Hfinal.
Qed.

(** * The properties *)

(** Closes [Forall in_c_int] goals over explicit lists. *)
Ltac in_range :=
  repeat match goal with
         | |- Forall _ [] => constructor
         | |- Forall _ (_ :: _) => constructor
         | |- in_c_int _ => unfold in_c_int; lia
         end.

Lemma sample_state_loaded label :
  loaded (sample_state label) 1%positive label default_colors 1%positive.
Proof.
  exists (Instance (Some "label.json") (Some 1%positive) (Some label)
                   (Some (Some 1%positive))), 1%positive.
  repeat split. now exists (Image "20.jpg" []).
Defined.

(** C1.  For a record with lanes [[10, -2, 30], [5, 15, -2]] and
    h_samples [100, 200, 300], the iteration of [draw_lanes] for lane 0
    draws exactly the points (10,100) and (30,300) in the colour
    palette[0], the iteration for lane 1 exactly (5,100) and (15,200) in
    the colour palette[1], and the whole call draws these four markers in
    that order and nothing else. *)
Theorem scenario_two_lanes s self d c0 c1 rest b :
  loaded s self d (c0 :: c1 :: rest) b ->
  subscript d "lanes" = Ok (jlanes [[10; -2; 30]; [5; 15; -2]]) ->
  subscript d "h_samples" = Ok (jints [100; 200; 300]) ->
  let s0 := paint b [dot c0 (10, 100); dot c0 (30, 300)] s in
  draw_lane self (jints [100; 200; 300]) (0%nat, jints [10; -2; 30]) s
  = (Ok tt, s0)
  /\ draw_lane self (jints [100; 200; 300]) (1%nat, jints [5; 15; -2]) s0
     = (Ok tt, paint b [dot c1 (5, 100); dot c1 (15, 200)] s0)
  /\ draw_lanes self [] s
     = (Ok tt, paint b [dot c0 (10, 100); dot c0 (30, 300);
                        dot c1 (5, 100); dot c1 (15, 200)] s).
Proof.
  intros Hld Hlanes Hhs s0.
  assert (Hne : c0 :: c1 :: rest ≠ []) by discriminate.
  assert (H0 : lane_color (c0 :: c1 :: rest) 0 = c0).
  { unfold lane_color. cbn [length]. rewrite Nat.mod_small by lia.
    reflexivity. }
  assert (H1 : lane_color (c0 :: c1 :: rest) 1 = c1).
  { unfold lane_color. cbn [length]. rewrite Nat.mod_small by lia.
    reflexivity. }
  repeat split.
  - rewrite (draw_lane_ints s self d (c0 :: c1 :: rest) b _ _ _ Hld Hne)
      by in_range.
    now rewrite H0.
  - rewrite (draw_lane_ints s0 self d (c0 :: c1 :: rest) b);
      [now rewrite H1 | now apply loaded_paint | assumption | in_range ..].
  - rewrite (draw_lanes_ints s self d _ b _ _ Hld Hlanes Hhs Hne)
      by in_range.
    cbn [lanes_marks]. now rewrite H0, H1.
Qed.

Lemma scenario_two_lanes_witness :
  draw_lanes 1%positive [] (sample_state sample_record)
  = (Ok tt, paint 1%positive
              [dot (255, 0, 0) (10, 100); dot (255, 0, 0) (30, 300);
               dot (0, 255, 0) (5, 100); dot (0, 255, 0) (15, 200)]
              (sample_state sample_record)).
Proof.
  apply (scenario_two_lanes (sample_state sample_record) 1%positive
           sample_record (255, 0, 0) (0, 255, 0) [(0, 0, 255)] 1%positive).
  - apply sample_state_loaded.
  - reflexivity.
  - reflexivity.
Defined.














(** C8.  [draw_lanes] changes nothing but the image buffer of the
    instance.  Whatever the record holds and however the call ends, the
    instances (with their record, image path and references), the palette
    lists, the file system and the I/O log are as before; a buffer other
    than [self.image] is as before; and [self.image] keeps its picture
    and only gains markers of radius 3, filled. *)
Theorem draw_lanes_frame self args s :
  let s' := snd (draw_lanes self args s) in
  instances s' = instances s
  /\ lists s' = lists s
  /\ fs s' = fs s
  /\ log s' = log s
  /\ (forall b, instances s !! self ≫= image_ref ≠ Some (Some b) ->
        images s' !! b = images s !! b)
  /\ (forall b im, images s !! b = Some im ->
        exists new,
          images s' !! b = Some (Image (picture im) (marks im ++ new))
          /\ Forall (fun m => radius m = 3 /\ thickness m = -1) new).
Proof.
  destruct (draw_lanes self args s) as [o s'] eqn:Hrun. simpl.
  apply draw_lanes_only_drawn in Hrun.
  pose proof Hrun as (Hi & Hl & Hf & Hg & Hb).
  repeat split; try assumption.
  - intros b Hb'. eapply only_drawn_untouched; [exact Hrun|].
    intros m [Himg _]. now apply Hb'.
  - intros b im Him. specialize (Hb b). rewrite Him in Hb.
    destruct Hb as (new & Hnew & HP). exists new. split; [exact Hnew|].
    eapply Forall_impl; [exact HP|]. intros m (_ & H1 & H2). now split.
Qed.

(** C9.  Constructing a [VisualTusimple] always raises [TypeError]:
    [__init__] passes [self.json_path] to [_load_json], which takes no
    argument.  Nothing has been opened or read by then: the I/O log, the
    file system and the image buffers are unchanged, and the instance
    that was being built has neither [data] nor [image]. *)
Theorem constructor_raises_TypeError jp lc s :
  exists s',
    VisualTusimple jp lc s = (Raise TypeError, s')
    /\ log s' = log s
    /\ fs s' = fs s
    /\ images s' = images s
    /\ (forall self inst,
          instances s' !! self = Some inst ->
          instances s !! self = None ->
          data inst = None /\ image_ref inst = None).
Proof.
  eexists. split; [apply VisualTusimple_raises|].
  repeat split; cbn [instances] in *;
    (destruct (decide (fresh (dom (instances s)) = self)) as [<-|Hne];
     [rewrite lookup_insert_eq in H; now injection H as <-
     |rewrite lookup_insert_ne in H by assumption; congruence]).
Qed.

(** C7.  Two constructions without a palette, one after the other.
    Each call binds [line_colors] to a list object that did not exist
    before the call and that holds red, green and blue; the two lists
    are distinct objects with equal contents, so storing anything into
    one leaves the other as it is.  (Each call then ends in the
    [TypeError] of line 26; the palette of line 25 is bound by then.) *)
Theorem default_palette_fresh jp1 jp2 s :
  exists s1 s2 v1 v2 p1 p2,
    VisualTusimple jp1 None s = (Raise TypeError, s1)
    /\ VisualTusimple jp2 None s1 = (Raise TypeError, s2)
    /\ instances s !! v1 = None
    /\ instances s1 !! v1 ≫= line_colors = Some p1
    /\ instances s1 !! v2 = None
    /\ instances s2 !! v1 ≫= line_colors = Some p1
    /\ instances s2 !! v2 ≫= line_colors = Some p2
    /\ lists s !! p1 = None
    /\ lists s1 !! p2 = None
    /\ p1 ≠ p2
    /\ lists s1 !! p1 = Some [(255, 0, 0); (0, 255, 0); (0, 0, 255)]
    /\ lists s2 !! p1 = Some [(255, 0, 0); (0, 255, 0); (0, 0, 255)]
    /\ lists s2 !! p2 = Some [(255, 0, 0); (0, 255, 0); (0, 0, 255)]
    /\ forall l,
         lists (set_lists (insert p1 l) s2) !! p2 = lists s2 !! p2
         /\ lists (set_lists (insert p2 l) s2) !! p1 = lists s2 !! p1.
Proof.
  pose proof (VisualTusimple_raises jp1 None s) as H1. cbv zeta in H1.
  set (v1 := fresh (dom (instances s))) in *.
  set (p1 := fresh (dom (lists s))) in *.
  set (s1 := State _ _ _ _ _) in H1.
  pose proof (VisualTusimple_raises jp2 None s1) as H2. cbv zeta in H2.
  set (v2 := fresh (dom (instances s1))) in *.
  set (p2 := fresh (dom (lists s1))) in *.
  set (s2 := State _ _ _ _ _) in H2.
  assert (Hv1 : instances s !! v1 = None)
    by apply not_elem_of_dom, is_fresh.
  assert (Hp1 : lists s !! p1 = None)
    by apply not_elem_of_dom, is_fresh.
  assert (Hv2 : instances s1 !! v2 = None)
    by apply not_elem_of_dom, is_fresh.
  assert (Hp2 : lists s1 !! p2 = None)
    by apply not_elem_of_dom, is_fresh.
  assert (Hs1p1 : lists s1 !! p1 = Some default_colors)
    by apply lookup_insert_eq.
  assert (Hp : p1 ≠ p2) by congruence.
  assert (Hv : v1 ≠ v2).
  { intros E. rewrite <- E in Hv2. unfold s1 in Hv2. cbn [instances] in Hv2.
    now rewrite lookup_insert_eq in Hv2. }
  exists s1, s2, v1, v2, p1, p2.
  repeat split; try assumption.
  - unfold s1. cbn [instances]. now rewrite lookup_insert_eq.
  - unfold s2. cbn [instances]. rewrite lookup_insert_ne by auto.
    unfold s1. cbn [instances]. now rewrite lookup_insert_eq.
  - unfold s2. cbn [instances]. now rewrite lookup_insert_eq.
  - unfold s2. cbn [lists]. rewrite lookup_insert_ne by auto. exact Hs1p1.
  - unfold s2. cbn [lists]. now rewrite lookup_insert_eq.
  - cbn [lists set_lists]. now rewrite lookup_insert_ne.
  - cbn [lists set_lists]. now rewrite lookup_insert_ne by auto.
Qed.

(** C4, as the code has it.  There is no [MalformedInputError] and no
    check of the fields when the record is loaded.  For a record that
    lacks [lanes], [draw_lanes] raises [KeyError('lanes')] when it reads
    the field, and leaves the whole state as it was; [_load_image], the
    step of [__init__] that comes before any drawing, does not look at
    [lanes] and reads the image named by [raw_file]. *)
Theorem missing_lanes_KeyError s self inst kvs :
  instances s !! self = Some inst ->
  data inst = Some (JObj kvs) ->
  assoc "lanes" kvs = None ->
  draw_lanes self [] s = (Raise (KeyError "lanes"), s)
  /\ (forall p, assoc "raw_file" kvs = Some (JStr p) ->
        exists img s',
          _load_image self [] s = (Ok img, s')
          /\ log s' = log s ++ [EvImread p]).
Proof.
  intros Hi Hd Hk. split.
  - unfold draw_lanes, call. cbn [length Nat.eqb].
    erewrite bind_ok by (eapply getattr_ok; eassumption).
    unfold bind, lift, subscript. now rewrite Hk.
  - intros p Hp. unfold _load_image, call. cbn [length Nat.eqb].
    erewrite bind_ok by (eapply getattr_ok; eassumption).
    unfold lift at 1. unfold bind at 1. unfold subscript. rewrite Hp.
    unfold cv2.imread. unfold bind at 1. unfold modify at 1.
    cbv beta iota. unfold bind at 1. unfold get at 1. cbv beta iota.
    destruct (node_of _ p) as [[|[j|img|]]|];
      try (eexists; eexists; split; reflexivity).
Qed.

Lemma missing_lanes_KeyError_witness :
  draw_lanes 1%positive [] (sample_state record_without_lanes)
  = (Raise (KeyError "lanes"), sample_state record_without_lanes).
Proof.
  apply (missing_lanes_KeyError (sample_state record_without_lanes) 1%positive
           (Instance (Some "label.json") (Some 1%positive)
                     (Some record_without_lanes) (Some (Some 1%positive)))
           [("h_samples", jints [100; 200; 300]);
            ("raw_file", JStr "clips/0313/20.jpg")]).
  - reflexivity.
  - reflexivity.
  - reflexivity.
Defined.

(** The claim C4 fails on a label file that parses and lacks [lanes]:
    the program ends in a [TypeError], and [draw_lanes] on an instance
    holding that record ends in a [KeyError]; neither is a
    [MalformedInputError]. *)
Lemma missing_lanes_not_MalformedInputError :
  ~ (forall enc label kvs s jp out,
       label = JObj kvs -> assoc "lanes" kvs = None ->
       node_of (fs s) jp = Some (File (CJson label)) ->
       fst (program enc jp out s) = Raise (Custom "MalformedInputError"))
  /\ fst (program (fun _ => true) "label.json" "out/vis.png"
            (fresh_state record_without_lanes))
     = Raise TypeError
  /\ fst (draw_lanes 1%positive [] (sample_state record_without_lanes))
     = Raise (KeyError "lanes").
Proof.
  assert (Hrun : fst (program (fun _ => true) "label.json" "out/vis.png"
                        (fresh_state record_without_lanes))
                 = Raise TypeError).
  { unfold program. unfold bind.
    now rewrite (VisualTusimple_raises "label.json" None). }
  split; [|split; [exact Hrun|]].
  - intros H.
    specialize (H (fun _ => true) record_without_lanes _
                  (fresh_state record_without_lanes)
                  "label.json" "out/vis.png" eq_refl eq_refl eq_refl).
    rewrite Hrun in H. discriminate.
  - reflexivity.
Qed.

(** C5, on the code.  [save_image] hands [output_path] itself, not its
    parent, to [ensure_file_exists].  With an output path that does not
    exist yet the call makes a directory at [out/vis.png] (and its
    ancestor [out]); [cv2.imwrite] then finds a directory where the file
    should go and writes nothing.  When OpenCV has an encoder for the
    name the call even returns normally. *)
Theorem save_image_makes_directory enc :
  let s := sample_state sample_record in
  node_of (fs s) "out/vis.png" = None
  /\ exists s',
       save_image enc 1%positive ["out/vis.png"] s
       = (if enc "out/vis.png" then Ok tt else Raise cv2_error, s')
       /\ fs s' !! ["out"] = Some Dir
       /\ fs s' !! ["out"; "vis.png"] = Some Dir
       /\ (forall c ct, fs s' !! c = Some (File ct) ->
             fs s !! c = Some (File ct)).
Proof.
  intros s. split; [reflexivity|].
  destruct (save_image enc 1%positive ["out/vis.png"] s) as [o s'] eqn:Hrun.
  exists s'.
  assert (Hmk : ensure_file_exists 1%positive ["out/vis.png"] true s
                = (Ok tt, set_fs (fun f => <[ ["out"; "vis.png"] := Dir ]>
                                             (<[ ["out"] := Dir ]> f)) s)).
  { vm_compute. reflexivity. }
  revert Hrun. unfold save_image.
  erewrite bind_ok by exact Hmk.
  erewrite bind_ok by (eapply getattr_ok; [cbn; apply lookup_insert_eq|reflexivity]).
  unfold bind at 1, cv2.imwrite. unfold bind at 1. unfold get at 1.
  cbv beta iota.
  replace (Some 1%positive ≫= _) with (Some (Image "20.jpg" []))
    by reflexivity.
  cbv beta iota.
  destruct (enc "out/vis.png"); cbn [negb].
  - unfold bind, modify, ret. cbv beta iota.
    replace (resolve "out/vis.png") with (Some ["out"; "vis.png"])
      by reflexivity.
    cbv beta iota.
    replace (is_dir (node_at _ ["out"; "vis.png"])) with true by reflexivity.
    cbn [negb andb]. intros [= <- <-].
    repeat split; try reflexivity.
    intros c ct. cbn [fs add_event set_fs].
    destruct (decide (c = ["out"; "vis.png"])) as [->|H1];
      [rewrite lookup_insert_eq; discriminate|].
    rewrite lookup_insert_ne by auto.
    destruct (decide (c = ["out"])) as [->|H2];
      [rewrite lookup_insert_eq; discriminate|].
    now rewrite lookup_insert_ne by auto.
  - unfold raise. intros [= <- <-].
    repeat split; try reflexivity.
    intros c ct. cbn [fs set_fs].
    destruct (decide (c = ["out"; "vis.png"])) as [->|H1];
      [rewrite lookup_insert_eq; discriminate|].
    rewrite lookup_insert_ne by auto.
    destruct (decide (c = ["out"])) as [->|H2];
      [rewrite lookup_insert_eq; discriminate|].
    now rewrite lookup_insert_ne by auto.
Qed.


Lemma ensure_twice self p ok s :
  (ensure_file_exists self [p] ok ;;; ensure_file_exists self [p] ok) s
  = ensure_file_exists self [p] ok s.
Proof.
  unfold bind at 1.
  destruct (ensure_file_exists self [p] ok s) as [[[]|e] s1] eqn:H1;
    [|reflexivity].
  apply ensure_ok_exists in H1 as [Hex _]. now apply ensure_existing.
Qed.

(** C6, as the code has it.  A call of [ensure_file_exists] can
    raise, so "twice, without an error" does not hold for every path;
    what holds for every path is the idempotence.  Two calls in a row
    on a path behave as one call; and whenever the first call returns,
    the second returns as well and leaves the state exactly as the
    first left it, with the path in place. *)
Theorem ensure_file_exists_idempotent self p ok s :
  (ensure_file_exists self [p] ok ;;; ensure_file_exists self [p] ok) s
  = ensure_file_exists self [p] ok s
  /\ (forall s1,
        ensure_file_exists self [p] ok s = (Ok tt, s1) ->
        ensure_file_exists self [p] ok s1 = (Ok tt, s1)
        /\ is_Some (node_of (fs s1) p)).
Proof.
  split; [apply ensure_twice|].
  intros s1 H. apply ensure_ok_exists in H as [Hex _].
  split; [now apply ensure_existing | exact Hex].
Qed.

Lemma ensure_file_exists_idempotent_witness :
  let s := fresh_state sample_record in
  let s1 := set_fs (fun f => <[ ["out"; "visual"] := Dir ]>
                               (<[ ["out"] := Dir ]> f)) s in
  ensure_file_exists 1%positive ["out/visual"] true s = (Ok tt, s1)
  /\ ensure_file_exists 1%positive ["out/visual"] true s1 = (Ok tt, s1)
  /\ node_of (fs s1) "out/visual" = Some Dir.
Proof.
  intros s s1.
  assert (H : ensure_file_exists 1%positive ["out/visual"] true s = (Ok tt, s1))
    by (vm_compute; reflexivity).
  split; [exact H|].
  split; [|vm_compute; reflexivity].
  exact (proj1 (proj2 (ensure_file_exists_idempotent 1%positive
                         "out/visual" true s) s1 H)).
Defined.

(** The claim C6 fails for the empty path: [os.path.exists('')] is
    false and [os.makedirs('')] raises [FileNotFoundError], at the
    first call already and whatever the state, so the two calls in a
    row raise. *)
Lemma ensure_file_exists_empty_path_raises :
  (forall self ok s,
     ensure_file_exists self [""] ok s = (Raise FileNotFoundError, s)
     /\ (ensure_file_exists self [""] ok ;;; ensure_file_exists self [""] ok) s
        = (Raise FileNotFoundError, s))
  /\ ~ (forall self p ok s, exists s1,
          (ensure_file_exists self [p] ok ;;; ensure_file_exists self [p] ok) s
          = (Ok tt, s1)).
Proof.
  assert (H : forall self ok s,
            ensure_file_exists self [""] ok s = (Raise FileNotFoundError, s)).
  { intros self ok s. rewrite ensure_missing by reflexivity. reflexivity. }
  split.
  - intros self ok s. split; [apply H|].
    unfold bind. now rewrite H.
  - intros Hall.
    destruct (Hall 1%positive "" true (fresh_state sample_record)) as [s1 Hs1].
    unfold bind in Hs1. rewrite H in Hs1. discriminate.
Qed.

(** * More of the class *)

(** ** [draw_lanes]: edges and composition *)

(** The record is read before anything is drawn: with [lanes] present
    and [h_samples] missing, [draw_lanes] raises [KeyError('h_samples')]
    whatever [lanes] holds (even nothing to draw) and changes nothing. *)
Theorem draw_lanes_missing_h_samples s self inst kvs lanes :
  instances s !! self = Some inst ->
  data inst = Some (JObj kvs) ->
  assoc "lanes" kvs = Some lanes ->
  assoc "h_samples" kvs = None ->
  draw_lanes self [] s = (Raise (KeyError "h_samples"), s).
Proof.
  intros Hi Hd Hl Hh. unfold draw_lanes, call. cbn [length Nat.eqb].
  erewrite bind_ok by (eapply getattr_ok; eassumption).
  unfold lift at 1. unfold bind at 1. unfold subscript at 1. rewrite Hl.
  erewrite bind_ok by (eapply getattr_ok; eassumption).
  unfold bind, lift, subscript. now rewrite Hh.
Qed.

Lemma draw_lanes_missing_h_samples_witness :
  let s := sample_state (JObj [("lanes", jlanes [[10; 20]])]) in
  draw_lanes 1%positive [] s = (Raise (KeyError "h_samples"), s).
Proof.
  intros s.
  apply (draw_lanes_missing_h_samples s 1%positive
           (Instance (Some "label.json") (Some 1%positive)
                     (Some (JObj [("lanes", jlanes [[10; 20]])]))
                     (Some (Some 1%positive)))
           [("lanes", jlanes [[10; 20]])] (jlanes [[10; 20]]));
    reflexivity.
Defined.

(** With no lane to iterate over, [draw_lanes] returns normally and
    changes nothing: the palette (even empty), the image (even [None])
    and the type of [h_samples] are never looked at. *)
Theorem draw_lanes_no_lanes s self inst d lanes h :
  instances s !! self = Some inst ->
  data inst = Some d ->
  subscript d "lanes" = Ok lanes ->
  subscript d "h_samples" = Ok h ->
  iter lanes = Ok [] ->
  draw_lanes self [] s = (Ok tt, s).
Proof.
  intros Hi Hd Hl Hh Hit. unfold draw_lanes, call. cbn [length Nat.eqb].
  erewrite bind_ok by (eapply getattr_ok; eassumption).
  unfold lift at 1. unfold bind at 1. rewrite Hl.
  erewrite bind_ok by (eapply getattr_ok; eassumption).
  unfold lift at 1. unfold bind at 1. rewrite Hh.
  unfold lift, bind. now rewrite Hit.
Qed.

Lemma draw_lanes_no_lanes_witness :
  let s := state_without_image
             (JObj [("lanes", JList []); ("h_samples", JNull)]) in
  draw_lanes 1%positive [] s = (Ok tt, s).
Proof.
  intros s.
  apply (draw_lanes_no_lanes s 1%positive
           (Instance (Some "label.json") (Some 1%positive)
                     (Some (JObj [("lanes", JList []); ("h_samples", JNull)]))
                     (Some None))
           (JObj [("lanes", JList []); ("h_samples", JNull)])
           (JList []) JNull);
    reflexivity.
Defined.

(** Drawing is not undone and not remembered: on a well-formed
    record (coordinates that fit a C int) a second [draw_lanes] draws
    every marker a second time. *)
Theorem draw_lanes_twice s self d pal b ls hs :
  loaded s self d pal b ->
  subscript d "lanes" = Ok (jlanes ls) ->
  subscript d "h_samples" = Ok (jints hs) ->
  pal ≠ [] ->
  Forall (Forall in_c_int) ls ->
  Forall in_c_int hs ->
  (draw_lanes self [] ;;; draw_lanes self []) s
  = (Ok tt, paint b (lanes_marks pal hs 0 ls ++ lanes_marks pal hs 0 ls) s).
Proof.
  intros Hld Hl Hh Hne Hrl Hrh.
  erewrite bind_ok by (eapply draw_lanes_ints; eassumption).
  rewrite (draw_lanes_ints _ self d pal b ls hs);
    [now rewrite paint_paint | now apply loaded_paint | assumption ..].
Qed.

Lemma draw_lanes_twice_witness :
  let s := sample_state sample_record in
  exists new,
    (draw_lanes 1%positive [] ;;; draw_lanes 1%positive []) s
    = (Ok tt, paint 1%positive new s)
    /\ length new = 8%nat.
Proof.
  intros s. eexists. split.
  - apply (draw_lanes_twice s 1%positive sample_record default_colors
             1%positive [[10; -2; 30]; [5; 15; -2]] [100; 200; 300]).
    + apply sample_state_loaded.
    + reflexivity.
    + reflexivity.
    + discriminate.
    + in_range.
    + in_range.
  - reflexivity.
Defined.

Lemma draw_lanes_loop_stops s self d pal b hs k ls1 bad rest :
  loaded s self d pal b ->
  pal ≠ [] ->
  Forall (Forall in_c_int) ls1 ->
  Forall in_c_int hs ->
  iter bad = Raise TypeError ->
  for_each (zip (seq k (length ((jints <$> ls1) ++ bad :: rest)))
                ((jints <$> ls1) ++ bad :: rest))
           (draw_lane self (jints hs)) s
  = (Raise TypeError, paint b (lanes_marks pal hs k ls1) s).
Proof.
  intros Hld Hne Hrl Hrh Hbad. revert k s Hld.
  induction Hrl as [|lane ls1 Hlane _ IH]; intros k s Hld.
  - cbn [fmap list_fmap app length seq zip zip_with for_each lanes_marks].
    rewrite paint_nil.
    destruct Hld as (inst & r & Hi & Hd & Hl & Hp & _).
    unfold bind at 1. unfold draw_lane. unfold bind at 1.
    erewrite line_color_at_ok by eassumption.
    unfold bind, lift. now rewrite Hbad.
  - cbn [fmap list_fmap app length seq zip zip_with for_each lanes_marks].
    erewrite bind_ok by (eapply draw_lane_ints; eassumption).
    change (list_fmap _ _ jints ls1) with (jints <$> ls1).
    rewrite IH by now apply loaded_paint.
    now rewrite paint_paint.
Qed.

(** There is no rollback.  When a lane is not iterable (JSON [null], a
    boolean or a number where a list should be), and the lanes before
    it are well formed (coordinates that fit a C int), [draw_lanes]
    raises [TypeError] at that lane, and the markers of the lanes
    before it stay on the buffer. *)
Theorem draw_lanes_stops_at_bad_lane s self d pal b ls1 bad rest hs :
  loaded s self d pal b ->
  subscript d "lanes" = Ok (JList ((jints <$> ls1) ++ bad :: rest)) ->
  subscript d "h_samples" = Ok (jints hs) ->
  pal ≠ [] ->
  Forall (Forall in_c_int) ls1 ->
  Forall in_c_int hs ->
  iter bad = Raise TypeError ->
  draw_lanes self [] s
  = (Raise TypeError, paint b (lanes_marks pal hs 0 ls1) s).
Proof.
  intros Hld Hlanes Hhs Hne Hrl Hrh Hbad.
  pose proof Hld as (inst & r & Hi & Hd & _).
  unfold draw_lanes, call. cbn [length Nat.eqb].
  erewrite bind_ok by (eapply getattr_ok; eassumption).
  unfold lift at 1. unfold bind at 1. rewrite Hlanes.
  erewrite bind_ok by (eapply getattr_ok; eassumption).
  unfold lift at 1. unfold bind at 1. rewrite Hhs.
  unfold iter at 1. unfold lift. unfold bind at 1. unfold enumerate.
  now apply draw_lanes_loop_stops with (d := d).
Qed.

Lemma draw_lanes_stops_at_bad_lane_witness :
  let s := sample_state
             (JObj [("lanes", JList [jints [10; 20]; JNull; jints [30; 40]]);
                    ("h_samples", jints [100; 200])]) in
  draw_lanes 1%positive [] s
  = (Raise TypeError,
     paint 1%positive [dot (255, 0, 0) (10, 100); dot (255, 0, 0) (20, 200)] s).
Proof.
  intros s.
  apply (draw_lanes_stops_at_bad_lane s 1%positive
           (JObj [("lanes", JList [jints [10; 20]; JNull; jints [30; 40]]);
                  ("h_samples", jints [100; 200])])
           default_colors 1%positive [[10; 20]] JNull [jints [30; 40]]
           [100; 200]).
  - apply sample_state_loaded.
  - reflexivity.
  - reflexivity.
  - discriminate.
  - in_range.
  - in_range.
  - reflexivity.
Defined.

Lemma lanes_marks_length pal hs k ls :
  Forall (fun lane => length lane = length hs) ls ->
  length (lanes_marks pal hs k ls)
  = length (filter (fun x => x ≠ -2) (concat ls)).
Proof.
  intros Hall. revert k. induction Hall as [|lane ls Hlen _ IH]; intros k.
  - reflexivity.
  - cbn [lanes_marks concat]. rewrite filter_app, !length_app, length_fmap.
    rewrite int_points_count by assumption. now rewrite IH.
Qed.

(** When every lane is as long as [h_samples] and the coordinates fit
    a C int, one call of [draw_lanes] draws as many markers as the
    record has lane entries different from -2, all lanes taken
    together. *)
Theorem draw_lanes_marker_count s self d pal b ls hs :
  loaded s self d pal b ->
  subscript d "lanes" = Ok (jlanes ls) ->
  subscript d "h_samples" = Ok (jints hs) ->
  pal ≠ [] ->
  Forall (Forall in_c_int) ls ->
  Forall in_c_int hs ->
  Forall (fun lane => length lane = length hs) ls ->
  exists new,
    draw_lanes self [] s = (Ok tt, paint b new s)
    /\ length new = length (filter (fun x => x ≠ -2) (concat ls)).
Proof.
  intros Hld Hl Hh Hne Hrl Hrh Hall. exists (lanes_marks pal hs 0 ls).
  split; [now apply draw_lanes_ints with (d := d)|].
  now apply lanes_marks_length.
Qed.

Lemma draw_lanes_marker_count_witness :
  let s := sample_state sample_record in
  exists new,
    draw_lanes 1%positive [] s = (Ok tt, paint 1%positive new s)
    /\ length new = 4%nat.
Proof.
  intros s.
  destruct (draw_lanes_marker_count s 1%positive sample_record default_colors
              1%positive [[10; -2; 30]; [5; 15; -2]] [100; 200; 300])
    as (new & Hrun & Hlen).
  - apply sample_state_loaded.
  - reflexivity.
  - reflexivity.
  - discriminate.
  - in_range.
  - in_range.
  - repeat constructor.
  - exists new. split; [exact Hrun | exact Hlen].
Defined.

Lemma lanes_marks_sound pal hs k ls :
  pal ≠ [] ->
  Forall (fun m =>
            radius m = 3 /\ thickness m = -1
            /\ mark_color m ∈ pal
            /\ fst (center m) ≠ -2
            /\ (exists lane, lane ∈ ls /\ fst (center m) ∈ lane)
            /\ snd (center m) ∈ hs)
         (lanes_marks pal hs k ls).
Proof.
  intros Hne. revert k. induction ls as [|lane ls IH]; intros k.
  - constructor.
  - cbn [lanes_marks]. apply Forall_app. split.
    + apply Forall_fmap, Forall_forall. intros [x y] Hin. cbn.
      apply int_points_lookup in Hin as (Hx & i & Hlx & Hly & _).
      repeat split; try assumption.
      * eapply list_elem_of_lookup_2. now apply lane_color_lookup.
      * exists lane. split; [left|]. eapply list_elem_of_lookup_2; eassumption.
      * eapply list_elem_of_lookup_2; eassumption.
    + eapply Forall_impl; [apply (IH (S k))|].
      intros m (H1 & H2 & H3 & H4 & (l & Hl & Hx) & H6).
      repeat split; try assumption. exists l. split; [now right|assumption].
Qed.

(** What [draw_lanes] draws on a well-formed record (coordinates that
    fit a C int): only filled circles of radius 3, in a colour of the
    palette, centred at an entry of some lane and at a row of
    [h_samples]; never at the -2 that marks a missing point. *)
Theorem draw_lanes_markers_sound s self d pal b ls hs :
  loaded s self d pal b ->
  subscript d "lanes" = Ok (jlanes ls) ->
  subscript d "h_samples" = Ok (jints hs) ->
  pal ≠ [] ->
  Forall (Forall in_c_int) ls ->
  Forall in_c_int hs ->
  exists new,
    draw_lanes self [] s = (Ok tt, paint b new s)
    /\ Forall (fun m =>
                 radius m = 3 /\ thickness m = -1
                 /\ mark_color m ∈ pal
                 /\ fst (center m) ≠ -2
                 /\ (exists lane, lane ∈ ls /\ fst (center m) ∈ lane)
                 /\ snd (center m) ∈ hs) new.
Proof.
  intros Hld Hl Hh Hne Hrl Hrh. exists (lanes_marks pal hs 0 ls).
  split; [now apply draw_lanes_ints with (d := d)|].
  now apply lanes_marks_sound.
Qed.

Lemma draw_lanes_markers_sound_witness :
  let s := sample_state sample_record in
  exists new,
    draw_lanes 1%positive [] s = (Ok tt, paint 1%positive new s)
    /\ Forall (fun m => fst (center m) ≠ -2) new.
Proof.
  intros s.
  destruct (draw_lanes_markers_sound s 1%positive sample_record default_colors
              1%positive [[10; -2; 30]; [5; 15; -2]] [100; 200; 300])
    as (new & Hrun & Hall).
  - apply sample_state_loaded.
  - reflexivity.
  - reflexivity.
  - discriminate.
  - in_range.
  - in_range.
  - exists new. split; [exact Hrun|].
    eapply Forall_impl; [exact Hall|]. intros m H. apply H.
Defined.

(** ** A picture that could not be read *)

Lemma circle_without_image s x y r c t :
  in_c_int x -> in_c_int y ->
  cv2.circle None (JInt x, JInt y) r c t s = (Ok tt, s).
Proof.
  intros Hx Hy. unfold cv2.circle, bind, get. cbv beta iota. cbn [fst snd].
  now rewrite (c_int_in_range x Hx), (c_int_in_range y Hy).
Qed.

Lemma draw_lane_without_image s self inst r pal hs i lane :
  instances s !! self = Some inst ->
  line_colors inst = Some r ->
  lists s !! r = Some pal ->
  pal ≠ [] ->
  image_ref inst = Some None ->
  Forall in_c_int lane ->
  Forall in_c_int hs ->
  draw_lane self (jints hs) (i, jints lane) s = (Ok tt, s).
Proof.
  intros Hi Hr Hp Hne Him Hrl Hrh. unfold draw_lane.
  erewrite bind_ok by (eapply line_color_at_ok; eassumption).
  unfold jints, iter, lift. unfold bind at 1 2.
  rewrite lane_points_ints.
  pose proof (int_points_in_range lane hs Hrl Hrh) as Hpts.
  induction Hpts as [|[x y] pts [Hx Hy] _ IH]; [reflexivity|].
  cbn [fmap list_fmap for_each].
  erewrite bind_ok; [exact IH|].
  erewrite bind_ok by (eapply getattr_ok; eassumption).
  now apply circle_without_image.
Qed.

Lemma draw_lanes_loop_without_image s self inst r pal hs k ls :
  instances s !! self = Some inst ->
  line_colors inst = Some r ->
  lists s !! r = Some pal ->
  pal ≠ [] ->
  image_ref inst = Some None ->
  Forall (Forall in_c_int) ls ->
  Forall in_c_int hs ->
  for_each (zip (seq k (length ls)) (jints <$> ls)) (draw_lane self (jints hs)) s
  = (Ok tt, s).
Proof.
  intros Hi Hr Hp Hne Him Hrl Hrh. revert k.
  induction Hrl as [|lane ls Hlane _ IH]; intros k; [reflexivity|].
  cbn [fmap list_fmap length seq zip zip_with for_each].
  erewrite bind_ok; [apply IH|].
  now apply (draw_lane_without_image s self inst r pal).
Qed.

(** [_load_image] does not check what [cv2.imread] returned, and
    [draw_lanes] does not notice either.  On an instance whose [image]
    is [None], with a well-formed record (coordinates that fit a C int)
    and a non-empty palette, [draw_lanes] goes through every lane and
    returns normally: OpenCV takes [None] for an empty matrix, nothing
    is drawn and nothing changes. *)
Theorem draw_lanes_without_image s self inst d r pal ls hs :
  instances s !! self = Some inst ->
  data inst = Some d ->
  line_colors inst = Some r ->
  lists s !! r = Some pal ->
  image_ref inst = Some None ->
  subscript d "lanes" = Ok (jlanes ls) ->
  subscript d "h_samples" = Ok (jints hs) ->
  pal ≠ [] ->
  Forall (Forall in_c_int) ls ->
  Forall in_c_int hs ->
  draw_lanes self [] s = (Ok tt, s).
Proof.
  intros Hi Hd Hr Hp Him Hlanes Hhs Hne Hrl Hrh.
  unfold draw_lanes, call. cbn [length Nat.eqb].
  erewrite bind_ok by (eapply getattr_ok; eassumption).
  unfold lift at 1. unfold bind at 1. rewrite Hlanes.
  erewrite bind_ok by (eapply getattr_ok; eassumption).
  unfold lift at 1. unfold bind at 1. rewrite Hhs.
  unfold jlanes, iter, lift. unfold bind at 1.
  unfold enumerate. rewrite length_fmap.
  now apply draw_lanes_loop_without_image with (inst := inst) (r := r) (pal := pal).
Qed.

Lemma draw_lanes_without_image_witness :
  let s := state_without_image sample_record in
  draw_lanes 1%positive [] s = (Ok tt, s).
Proof.
  intros s.
  apply (draw_lanes_without_image s 1%positive
           (Instance (Some "label.json") (Some 1%positive)
                     (Some sample_record) (Some None))
           sample_record 1%positive default_colors
           [[10; -2; 30]; [5; 15; -2]] [100; 200; 300]);
    try reflexivity; try discriminate; in_range.
Defined.

(** ** [_load_image] *)

(** A record without [raw_file] makes [_load_image] raise
    [KeyError('raw_file')] before OpenCV is called: nothing is read and
    nothing changes. *)
Theorem load_image_missing_raw_file s self inst kvs :
  instances s !! self = Some inst ->
  data inst = Some (JObj kvs) ->
  assoc "raw_file" kvs = None ->
  _load_image self [] s = (Raise (KeyError "raw_file"), s).
Proof.
  intros Hi Hd Hk. unfold _load_image, call. cbn [length Nat.eqb].
  erewrite bind_ok by (eapply getattr_ok; eassumption).
  unfold bind, lift, subscript. now rewrite Hk.
Qed.

Lemma load_image_missing_raw_file_witness :
  let s := sample_state (JObj [("lanes", jlanes [[10; 20]])]) in
  _load_image 1%positive [] s = (Raise (KeyError "raw_file"), s).
Proof.
  intros s.
  apply (load_image_missing_raw_file s 1%positive
           (Instance (Some "label.json") (Some 1%positive)
                     (Some (JObj [("lanes", jlanes [[10; 20]])]))
                     (Some (Some 1%positive)))
           [("lanes", jlanes [[10; 20]])]);
    reflexivity.
Defined.





(** ** [_load_json] *)

(** How [locate] resolves names on the sample disk: a name below a
    regular file and a regular file with a trailing slash are not
    directories, [..] is followed through an existing directory only. *)
Example locate_below_file :
  locate (sample_disk sample_record) "label.json/x" = Raise NotADirectoryError
  /\ locate (sample_disk sample_record) "label.json/" = Raise NotADirectoryError
  /\ locate (sample_disk sample_record) "missing/x" = Raise FileNotFoundError
  /\ locate (sample_disk sample_record) "missing/../label.json"
     = Raise FileNotFoundError
  /\ locate (sample_disk sample_record) "clips/../label.json"
     = Ok (File (CJson sample_record))
  /\ locate (sample_disk sample_record) "./clips//0313/." = Ok Dir.
Proof. repeat split. Qed.



(** ** The constructor with a palette *)

(** A palette passed to the constructor is not copied: the instance
    holds the caller's list object itself and no list is allocated, so
    a later change of that list by the caller is a change of the
    instance's palette. *)
Theorem constructor_shares_palette jp l s :
  exists s' v,
    VisualTusimple jp (Some l) s = (Raise TypeError, s')
    /\ instances s !! v = None
    /\ instances s' !! v ≫= line_colors = Some l
    /\ lists s' = lists s
    /\ forall new s'',
         lists s'' = <[l := new]> (lists s') ->
         instances s'' = instances s' ->
         (instances s'' !! v ≫= line_colors) ≫= (fun r => lists s'' !! r)
         = Some new.
Proof.
  pose proof (VisualTusimple_raises jp (Some l) s) as H. cbv zeta in H.
  set (v := fresh (dom (instances s))) in *.
  set (s' := State _ _ _ _ _) in H.
  assert (Hv : instances s' !! v ≫= line_colors = Some l).
  { unfold s'. cbn [instances]. now rewrite lookup_insert_eq. }
  exists s', v. split; [exact H|].
  split; [apply not_elem_of_dom, is_fresh|].
  split; [exact Hv|]. split; [reflexivity|].
  intros new s'' Hl Hi. rewrite Hi, Hv. cbn. rewrite Hl.
  apply lookup_insert_eq.
Qed.

(** ** [ensure_file_exists] with any number of paths *)


Lemma ensure_step_single self p ok s :
  ensure_file_exists self [p] ok s
  = (e <- os.path.exists_ p ;;
     if negb e then os.makedirs p ok else ret tt) s.
Proof.
  unfold ensure_file_exists. cbn [for_each]. unfold bind at 1.
  destruct (bind (os.path.exists_ p) _ s) as [[[]|e] s1]; reflexivity.
Qed.

Lemma ensure_args_only_new_dirs self args ok s o s' :
  ensure_file_exists self args ok s = (o, s') -> only_new_dirs s s'.
Proof.
  unfold ensure_file_exists. revert s.
  induction args as [|p args IH]; intros s; cbn [for_each].
  - intros [= _ <-]. apply only_new_dirs_refl.
  - unfold bind at 1.
    pose proof (ensure_step_single self p ok s) as Hstep.
    destruct (bind (os.path.exists_ p) _ s) as [[[]|e] s1] eqn:Hp;
      apply ensure_only_new_dirs in Hstep.
    + intros H. eapply only_new_dirs_trans; [exact Hstep|]. now apply IH.
    + now intros [= _ <-].
Qed.

(** Whatever paths it is given and however it ends,
    [ensure_file_exists] touches nothing but the file system, and
    there it only adds directories: every node that existed is still
    there unchanged, and no regular file appears. *)
Theorem ensure_file_exists_only_adds_directories self args ok s :
  let s' := snd (ensure_file_exists self args ok s) in
  instances s' = instances s
  /\ lists s' = lists s
  /\ images s' = images s
  /\ log s' = log s
  /\ (forall c n, fs s !! c = Some n -> fs s' !! c = Some n)
  /\ (forall c ct, fs s' !! c = Some (File ct) -> fs s !! c = Some (File ct)).
Proof.
  destruct (ensure_file_exists self args ok s) as [o s'] eqn:Hrun. cbn.
  apply ensure_args_only_new_dirs in Hrun as (Hi & Hl & Hm & Hg & Hf).
  repeat split; try assumption.
  - intros c n Hc. destruct (Hf c) as [H|[H _]]; congruence.
  - intros c ct Hc. destruct (Hf c) as [H|[_ H]]; congruence.
Qed.



Lemma bind_congr {A B} (m1 m2 : M A) (k1 k2 : A -> M B) s :
  m1 s = m2 s ->
  (forall a s', m2 s = (Ok a, s') -> k1 a s' = k2 a s') ->
  bind m1 k1 s = bind m2 k2 s.
Proof.
  intros Hm Hk. unfold bind. rewrite Hm.
  destruct (m2 s) as [[a|e] s']; [now apply Hk|reflexivity].
Qed.

Lemma mkdir_elsewhere c0 s o s' c :
  os.mkdir c0 s = (o, s') -> c ≠ c0 -> fs s' !! c = fs s !! c.
Proof.
  unfold os.mkdir, bind, get. cbv beta iota.
  destruct c0 as [|x c0]; [now intros [= _ <-]|].
  destruct (fs s !! (x :: c0)); [now intros [= _ <-]|].
  destruct (node_at (fs s) (parent (x :: c0))) as [[|ct]|];
    try (now intros [= _ <-]).
  unfold modify. intros [= _ <-] Hne. cbn [fs set_fs].
  now apply lookup_insert_ne.
Qed.

(** [os.makedirs] makes nothing deeper than the path it is given. *)
Lemma makedirs_rev_short rc ok s o s' c :
  os.makedirs_rev rc ok s = (o, s') ->
  (length rc < length c)%nat ->
  fs s' !! c = fs s !! c.
Proof.
  revert s o s'. induction rc as [|x rhead IH]; intros s o s' Hrun Hlen.
  - revert Hrun. cbn [os.makedirs_rev]. unfold bind at 1. unfold ret at 1.
    unfold try_except.
    destruct (os.mkdir _ s) as [[[]|e] s1] eqn:Hm;
      apply mkdir_elsewhere with (c := c) in Hm;
      try (intros ->; cbn in Hlen; lia).
    + now intros [= _ <-].
    + unfold bind, get. cbv beta iota.
      destruct (os.is_os_error e); [|now intros [= _ <-]].
      destruct (_ || _); now intros [= _ <-].
  - revert Hrun. cbn [os.makedirs_rev]. unfold bind at 1.
    assert (Hleaf : c ≠ rev (x :: rhead)).
    { intros ->. rewrite length_rev in Hlen. lia. }
    destruct (bind get _ s) as [[[]|e0] s1] eqn:Hh.
    2: { intros [= _ <-]. revert Hh. unfold bind, get. cbv beta iota.
         destruct (node_at (fs s) (rev rhead)); [discriminate|].
         unfold try_except.
         destruct (os.makedirs_rev rhead ok s) as [[[]|e] s2] eqn:Hr;
           apply IH in Hr; try (cbn [length] in Hlen; lia);
           [discriminate|].
         destruct e; now intros [= _ <-]. }
    assert (Hs1 : fs s1 !! c = fs s !! c).
    { revert Hh. unfold bind, get. cbv beta iota.
      destruct (node_at (fs s) (rev rhead)); [now intros [= <-]|].
      unfold try_except.
      destruct (os.makedirs_rev rhead ok s) as [[[]|e] s2] eqn:Hr;
        apply IH in Hr; try (cbn [length] in Hlen; lia);
        [now intros [= <-]|].
      destruct e; try discriminate. now intros [= <-]. }
    unfold try_except.
    destruct (os.mkdir _ s1) as [[[]|e] s2] eqn:Hm;
      apply mkdir_elsewhere with (c := c) in Hm; try assumption.
    + intros [= _ <-]. congruence.
    + unfold bind, get. cbv beta iota.
      destruct (os.is_os_error e); [|intros [= _ <-]; congruence].
      destruct (_ || _); intros [= _ <-]; congruence.
Qed.

(** For a path that does not exist, [exist_ok] makes no difference to
    [os.makedirs]. *)
Lemma makedirs_rev_flag rc s :
  rc ≠ [] -> fs s !! rev rc = None ->
  os.makedirs_rev rc false s = os.makedirs_rev rc true s.
Proof.
  revert s. induction rc as [|x rhead IH]; intros s Hne Hnone; [done|].
  cbn [os.makedirs_rev].
  assert (Hhead :
    (s0 <- get ;;
     match node_at (fs s0) (rev rhead) with
     | Some _ => ret tt
     | None =>
         try_except (os.makedirs_rev rhead false)
           (fun e => match e with
                     | FileExistsError => ret tt
                     | _ => raise e
                     end)
     end) s
    = (s0 <- get ;;
       match node_at (fs s0) (rev rhead) with
       | Some _ => ret tt
       | None =>
           try_except (os.makedirs_rev rhead true)
             (fun e => match e with
                       | FileExistsError => ret tt
                       | _ => raise e
                       end)
       end) s).
  { unfold bind, get. cbv beta iota.
    destruct (node_at (fs s) (rev rhead)) eqn:Hn; [reflexivity|].
    unfold try_except. rewrite IH; [reflexivity| |].
    - intros ->. discriminate Hn.
    - destruct (rev rhead); [discriminate Hn|exact Hn]. }
  apply bind_congr; [exact Hhead|]. clear Hhead. intros [] s1 Hh.
  assert (Hs1 : fs s1 !! rev (x :: rhead) = None).
  { rewrite <- Hnone. revert Hh. unfold bind, get. cbv beta iota.
    destruct (node_at (fs s) (rev rhead)); [now intros [= <-]|].
    unfold try_except.
    destruct (os.makedirs_rev rhead true s) as [[[]|e] s2] eqn:Hr;
      apply makedirs_rev_short with (c := rev (x :: rhead)) in Hr;
      try (rewrite length_rev; cbn [length]; lia).
    - now intros [= <-].
    - destruct e; try discriminate. now intros [= <-]. }
  assert (Hc : rev (x :: rhead) ≠ []).
  { cbn [rev]. now destruct (rev rhead). }
  unfold try_except.
  destruct (os.mkdir _ s1) as [[[]|e] s2] eqn:Hm; [reflexivity|].
  assert (Hs2 : s2 = s1 /\ os.is_os_error e = true).
  { revert Hm. unfold os.mkdir, bind, get. cbv beta iota.
    destruct (rev (x :: rhead)) as [|y c]; [done|].
    rewrite Hs1.
    destruct (node_at (fs s1) (parent (y :: c))) as [[|ct]|];
      try discriminate; now intros [= <- <-]. }
  destruct Hs2 as [-> He]. unfold bind, get. cbv beta iota. rewrite He.
  assert (Hd : is_dir (node_at (fs s1) (rev (x :: rhead))) = false).
  { destruct (rev (x :: rhead)) as [|y c]; [done|].
    cbn [node_at]. now rewrite Hs1. }
  rewrite Hd. reflexivity.
Qed.

(** The keyword [exist_ok] has no effect on a path without [.] and
    [..] components: [os.makedirs] is only called for a path that
    [os.path.exists] has just found missing, so
    [ensure_file_exists(..., exist_ok=False)] behaves exactly as with
    the default [True], on every list of such paths and every state.
    (A path ending in [..] can name a directory that [os.makedirs]
    itself has just made, which only [exist_ok=True] passes over.) *)
Theorem ensure_file_exists_exist_ok_irrelevant self args s :
  Forall no_dot_components args ->
  ensure_file_exists self args false s = ensure_file_exists self args true s.
Proof.
  intros _. unfold ensure_file_exists. revert s.
  induction args as [|p args IH]; intros s; [reflexivity|].
  cbn [for_each].
  assert (Hstep :
    (e <- os.path.exists_ p ;;
     if negb e then os.makedirs p false else ret tt) s
    = (e <- os.path.exists_ p ;;
       if negb e then os.makedirs p true else ret tt) s).
  { destruct (node_of (fs s) p) as [n|] eqn:Hn.
    - rewrite !(bind_ok _ _ s true s); try reflexivity;
        apply exists_true; rewrite Hn; eauto.
    - rewrite !(bind_ok _ _ s false s) by now apply exists_false.
      cbn [negb]. unfold os.makedirs. unfold node_of in Hn.
      destruct (resolve p) as [c|]; [|reflexivity].
      apply makedirs_rev_flag.
      + intros Hr. apply (f_equal (@rev string)) in Hr.
        rewrite rev_involutive in Hr. subst c. discriminate Hn.
      + rewrite rev_involutive. destruct c; [discriminate Hn|exact Hn]. }
  apply bind_congr; [exact Hstep|]. intros [] s1 _. apply IH.
Qed.

Lemma ensure_file_exists_exist_ok_irrelevant_witness :
  let s := fresh_state sample_record in
  ensure_file_exists 1%positive ["out/a"; "label.json/sub"; "out/b"] false s
  = ensure_file_exists 1%positive ["out/a"; "label.json/sub"; "out/b"] true s.
Proof.
  intros s. apply ensure_file_exists_exist_ok_irrelevant.
  repeat constructor; discriminate.
Defined.

(** ** [save_image], [visualize] and the script *)






(** When drawing fails, [visualize] stops there: it raises what
    [draw_lanes] raised, makes no directory, writes no file and logs no
    I/O.  Markers drawn before the failure stay on the buffer. *)
Theorem visualize_failure_leaves_disk enc self out s e s1 :
  draw_lanes self [] s = (Raise e, s1) ->
  visualize enc self [out] s = (Raise e, s1)
  /\ fs s1 = fs s
  /\ log s1 = log s
  /\ instances s1 = instances s
  /\ lists s1 = lists s.
Proof.
  intros Hrun. split.
  - unfold visualize, bind. now rewrite Hrun.
  - apply draw_lanes_only_drawn in Hrun as (Hi & Hl & Hf & Hg & _).
    now repeat split.
Qed.

Lemma visualize_failure_leaves_disk_witness :
  let s := sample_state record_without_lanes in
  visualize (fun _ => true) 1%positive ["out/vis.png"] s
  = (Raise (KeyError "lanes"), s).
Proof.
  intros s.
  apply (visualize_failure_leaves_disk (fun _ => true) 1%positive
           "out/vis.png" s (KeyError "lanes") s).
  reflexivity.
Defined.



(** The script never gets as far as drawing or saving.  Whatever the
    two paths and whatever is on the disk, it ends in the [TypeError]
    of the constructor: no file is opened, no image is read, nothing is
    written, and the file system is as before.  [main], the script with
    the paths of the source, is one such run. *)
Theorem program_never_outputs enc jp out s :
  (exists s',
     program enc jp out s = (Raise TypeError, s')
     /\ fs s' = fs s /\ log s' = log s /\ images s' = images s)
  /\ (exists s',
        main enc s = (Raise TypeError, s')
        /\ fs s' = fs s /\ log s' = log s /\ images s' = images s).
Proof.
  assert (H : forall p q, exists s',
            program enc p q s = (Raise TypeError, s')
            /\ fs s' = fs s /\ log s' = log s /\ images s' = images s).
  { intros p q. eexists. split.
    - unfold program, bind. now rewrite (VisualTusimple_raises p None).
    - now repeat split. }
  split; [apply H|]. unfold main. apply H.
Qed.
